(** * Verification of [pathwayfunctions.py]

    A shallow embedding of the two functions of the module,
    [t_tests] and [over_representation_analysis], and the properties of
    them that the specification states.

    Conventions of the embedding.

    - A Python exception is a value of [exn]; a computation that may raise
      returns a [result].
    - A pandas frame handed to [over_representation_analysis] is a list of
      labelled rows under a list of column labels ([Frame]); its cells are
      strings or the missing value ([cell]).
    - A Python [set] is represented by a duplicate-free listing.  [len] and
      [&] do not depend on the listing; [list(set(..))] exposes it, so the
      listing order is a parameter of the model ([set_order]).
    - The library calls ([np.setdiff1d], [scipy.stats.fisher_exact],
      [statsmodels multipletests], [scipy.stats.ttest_ind]) are modelled by
      what the libraries compute: in exact arithmetic, on rationals [Q], for
      the hypergeometric tail and the Benjamini-Hochberg adjustment; in
      binary64 arithmetic for the t-test, whose results depend on the
      rounding and on the IEEE special values. *)

From Stdlib Require Import String Ascii List Bool Arith ZArith QArith Qminmax.
From Stdlib Require Import Lia Permutation Sorted DecimalString SpecFloat.
Import ListNotations.

Open Scope string_scope.
Open Scope nat_scope.
Open Scope list_scope.

(** ** Python values common to both functions *)

Module Py.

Inductive exn : Type :=
| KeyError
| AttributeError
| ValueError
| ZeroDivisionError.

Inductive result (A : Type) : Type :=
| Ok (a : A)
| Raise (e : exn).

Arguments Ok {A} a.
Arguments Raise {A} e.

Definition bind {A B : Type} (m : result A) (k : A -> result B) : result B :=
  match m with
  | Ok a => k a
  | Raise e => Raise e
  end.

(** [str(n)] for a non-negative [int]. *)
Definition str_int (n : nat) : string := NilZero.string_of_uint (Nat.to_uint n).

(** [x in l] for a list of strings. *)
Definition mem (x : string) (l : list string) : bool :=
  existsb (String.eqb x) l.

(** A frame as [pd.DataFrame(rows, columns=...)] builds it: the constructor
    raises when a row has not as many fields as there are columns, and
    accepts no rows at all under any list of columns. *)
Record Table (V : Type) : Type := mkTable
  { header : list string;
    body : list (list V) }.

Arguments mkTable {V} header body.
Arguments header {V} t.
Arguments body {V} t.

Definition pd_DataFrame {V : Type} (data : list (list V)) (columns : list string)
  : result (Table V) :=
  if forallb (fun r => length r =? length columns) data
  then Ok (mkTable columns data)
  else Raise ValueError.

(** The column of a table under a label: the field of every row at the
    position of the first column with that label. *)
Fixpoint index_of (x : string) (l : list string) : option nat :=
  match l with
  | [] => None
  | y :: l' => if String.eqb x y then Some 0
               else option_map S (index_of x l')
  end.

Definition column {V : Type} (label : string) (t : Table V) : list (option V) :=
  match index_of label (header t) with
  | Some i => map (fun r => nth_error r i) (body t)
  | None => []
  end.

(** [zip] of columns, one column at a time: it stops at the shortest. *)
Fixpoint zip_cons {V : Type} (col : list V) (rest : list (list V)) : list (list V) :=
  match col, rest with
  | x :: col', r :: rest' => (x :: r) :: zip_cons col' rest'
  | _, _ => []
  end.

Definition zip_last {V : Type} (col : list V) : list (list V) :=
  map (fun x => [x]) col.

End Py.

Import Py.

Notation "x <- m ;; k" := (bind m (fun x => k))
  (at level 61, m at next level, right associativity).

(** ** numpy: sorted unique values and set difference of arrays of strings *)

Module Np.

Fixpoint insert_sorted (x : string) (l : list string) : list string :=
  match l with
  | [] => [x]
  | y :: l' => if String.leb x y then x :: l else y :: insert_sorted x l'
  end.

Definition sort (l : list string) : list string :=
  fold_right insert_sorted [] l.

(** [np.unique(ar)]: the sorted unique values. *)
Definition unique (ar : list string) : list string :=
  sort (nodup string_dec ar).

(** [np.setdiff1d(ar1, ar2)]: the unique values of [ar1] that are not in
    [ar2], sorted.  Both arguments go through [unique] first
    ([assume_unique] is left at its default, [False]). *)
Definition setdiff1d (ar1 ar2 : list string) : list string :=
  let ar1 := unique ar1 in
  let ar2 := unique ar2 in
  filter (fun x => negb (mem x ar2)) ar1.

End Np.

(** ** Python sets of strings, by duplicate-free listings *)

Module PySet.

(** [set(l)] *)
Definition set_ (l : list string) : list string := nodup string_dec l.

(** [s & t] *)
Definition inter (s t : list string) : list string :=
  filter (fun x => mem x t) s.

End PySet.

(** ** scipy.stats.fisher_exact, alternative "greater" *)

Module Fisher.

(** Binomial coefficient, by the multiplicative formula: after [i] steps
    the accumulator is [C(n - k + i, i)], so every division is exact. *)
Fixpoint binom_steps (steps : nat) (m : Z) (i : Z) (acc : Z) : Z :=
  match steps with
  | O => acc
  | S steps' => binom_steps steps' m (i + 1) (acc * (m + i + 1) / (i + 1))%Z
  end.

Definition binom (n k : nat) : Z :=
  if n <? k then 0%Z
  else binom_steps k (Z.of_nat (n - k)) 0%Z 1%Z.

(** [hypergeom.pmf(k, M, n, N)]: [k] marked items among [N] drawn from [M]
    items of which [n] are marked. *)
Definition hypergeom_pmf (k M n N : nat) : Q :=
  if N <? k then 0%Q
  else (inject_Z (binom n k * binom (M - n) (N - k)) / inject_Z (binom M N))%Q.

(** [hypergeom.cdf(k, M, n, N)] *)
Definition hypergeom_cdf (k M n N : nat) : Q :=
  fold_right Qplus 0%Q (map (fun i => hypergeom_pmf i M n N) (seq 0 (S k))).

(** The p-value of [fisher_exact([[a, b], [c, d]], alternative="greater")]:
    1 when a row or a column of the table sums to zero, otherwise the
    hypergeometric probability of at most [b] first-row items among the
    [b + d] of the second column.  The value is kept in lowest terms. *)
Definition fisher_exact_greater (a b c d : nat) : Q :=
  if (a + b =? 0) || (c + d =? 0) || (a + c =? 0) || (b + d =? 0)
  then 1%Q
  else Qred (hypergeom_cdf b (a + b + c + d) (a + b) (b + d)).

End Fisher.

(** ** statsmodels: multipletests(pvals, 0.05, method="fdr_bh")[1] *)

Module Multitest.

Fixpoint insert_by (x : nat * Q) (l : list (nat * Q)) : list (nat * Q) :=
  match l with
  | [] => [x]
  | y :: l' => if Qle_bool (snd x) (snd y) then x :: l else y :: insert_by x l'
  end.

(** The p-values with their positions, in ascending order of p-value. *)
Definition sort_indexed (pvals : list Q) : list (nat * Q) :=
  fold_right insert_by [] (combine (seq 0 (length pvals)) pvals).

(** [np.argsort(pvals)] *)
Definition argsort (pvals : list Q) : list nat := map fst (sort_indexed pvals).

(** [np.take(pvals, sortind)] *)
Definition take (pvals : list Q) (sortind : list nat) : list Q :=
  map (fun i => nth i pvals 0%Q) sortind.

(** [_ecdf]: [arange(1, n + 1) / n] *)
Definition ecdf (n : nat) : list Q :=
  map (fun i => (inject_Z (Z.of_nat i) / inject_Z (Z.of_nat n))%Q) (seq 1 n).

Fixpoint map2 {A B C : Type} (f : A -> B -> C) (l : list A) (l' : list B) : list C :=
  match l, l' with
  | x :: l, y :: l' => f x y :: map2 f l l'
  | _, _ => []
  end.

(** [np.minimum.accumulate(x[::-1])[::-1]]: the running minimum, taken from
    the right end. *)
Definition cummin_right (x : list Q) : list Q :=
  fold_right (fun v acc => match acc with
                           | [] => [v]
                           | m :: _ => Qmin v m :: acc
                           end) [] x.

Fixpoint set_nth {A : Type} (i : nat) (v : A) (l : list A) : list A :=
  match l, i with
  | [], _ => []
  | _ :: l', O => v :: l'
  | x :: l', S i' => x :: set_nth i' v l'
  end.

(** [out = np.empty_like(vals); out[sortind] = vals] *)
Definition scatter (sortind : list nat) (vals : list Q) : list Q :=
  fold_left (fun out iv => set_nth (fst iv) (snd iv) out)
            (combine sortind vals) (repeat 0%Q (length vals)).

(** The adjusted p-values of the Benjamini-Hochberg procedure, in the order
    of [pvals].  [1./ntests] raises on an empty list.  Values are exact
    rationals, kept in lowest terms. *)
Definition fdr_bh (pvals : list Q) : result (list Q) :=
  let ntests := length pvals in
  if ntests =? 0 then Raise ZeroDivisionError
  else
    let sortind := argsort pvals in
    let pvals_sorted := take pvals sortind in
    let ecdffactor := ecdf ntests in
    let pvals_corrected_raw := map2 Qdiv pvals_sorted ecdffactor in
    let pvals_corrected := cummin_right pvals_corrected_raw in
    let pvals_corrected :=
      map (fun x => if Qle_bool x 1 then x else 1%Q) pvals_corrected in
    Ok (scatter sortind (map Qred pvals_corrected)).

(** The number of p-values that are at most [t]. *)
Definition count_le (l : list Q) (t : Q) : nat :=
  length (filter (fun y => Qle_bool y t) l).

Definition frac (i n : nat) : Q := (inject_Z (Z.of_nat i) / inject_Z (Z.of_nat n))%Q.

(** The Benjamini-Hochberg adjustment, value by value: the least
    [t * n / #{p <= t}] over the p-values [t] from [x] upwards, and at most 1. *)
Definition bh_adjust (l : list Q) (x : Q) : Q :=
  fold_right Qmin 1%Q
    (map (fun t => (t / frac (count_le l t) (length l))%Q)
         (filter (fun t => Qle_bool x t) l)).

End Multitest.

(** ** over_representation_analysis *)

Module ORA.

Import PySet.

(** A cell of the pathway frame: a compound identifier (or a pathway name),
    or the missing value [float('nan')]. *)
Inductive cell : Type :=
| NaN
| Str (s : string).

Definition str (c : cell) : string :=
  match c with
  | NaN => "nan"
  | Str s => s
  end.

Definition isna (c : cell) : bool :=
  match c with
  | NaN => true
  | Str _ => false
  end.

(** The pathway frame: column labels, and the rows with their index label
    (the pathway identifier). *)
Record Frame : Type := mkFrame
  { columns : list string;
    rows : list (string * list cell) }.

(** The cells of a row under the columns whose label satisfies [keep]. *)
Definition select (keep : string -> bool) (cols : list string) (cells : list cell)
  : list cell :=
  map snd (filter (fun lc => keep (fst lc)) (combine cols cells)).

(** [df.dropna(axis=0, how='all', subset=subset)] *)
Definition dropna_all (subset : list string) (df : Frame) : Frame :=
  mkFrame (columns df)
    (filter (fun r => negb (forallb isna
                              (select (fun c => mem c subset) (columns df) (snd r))))
            (rows df)).

(** [df[label].tolist()]: a missing label is a [KeyError]; under a label
    that several columns carry, [df[label]] is a frame, which has no
    [tolist]. *)
Definition getitem_tolist (label : string) (df : Frame) : result (list cell) :=
  match count_occ string_dec (columns df) label with
  | 0 => Raise KeyError
  | 1 => Ok (map (fun r => hd NaN (select (String.eqb label) (columns df) (snd r)))
                 (rows df))
  | _ => Raise AttributeError
  end.

(** [df.drop(label, axis=1)] *)
Definition drop_column (label : string) (df : Frame) : Frame :=
  mkFrame (filter (fun c => negb (String.eqb label c)) (columns df))
    (map (fun r => (fst r,
                    select (fun c => negb (String.eqb label c)) (columns df) (snd r)))
         (rows df)).

(** [df.loc[label, :].tolist()]: under an index label that several rows
    carry, [df.loc[label, :]] is a frame, which has no [tolist]. *)
Definition loc_tolist (df : Frame) (label : string) : result (list cell) :=
  match filter (fun r => String.eqb label (fst r)) (rows df) with
  | [] => Raise KeyError
  | [r] => Ok (snd r)
  | _ => Raise AttributeError
  end.

(** [d[k]] for [d = dict(zip(keys, vals))]: the last binding of [k]. *)
Definition dict_get (d : list (string * cell)) (k : string) : result cell :=
  match find (fun kv => String.eqb k (fst kv)) (rev d) with
  | Some kv => Ok (snd kv)
  | None => Raise KeyError
  end.

(** A field of the result frame. *)
Inductive value : Type :=
| VCell (c : cell)
| VStr (s : string)
| VNum (q : Q).

(** [for x in l: body] over a state, in the error monad. *)
Fixpoint for_each {S A : Type} (l : list A) (body : S -> A -> result S) (s : S)
  : result S :=
  match l with
  | [] => Ok s
  | x :: l' => s' <- body s x ;; for_each l' body s'
  end.

(** The lists the loop appends to. *)
Record acc : Type := mkAcc
  { pathways_with_compounds : list string;
    pathway_names_with_compounds : list cell;
    pvalues : list Q;
    pathway_ratio : list string;
    pathway_count : nat;
    pathway_coverage : list string }.

Definition acc_init : acc := mkAcc [] [] [] [] 0 [].

(** The 2 by 2 contingency table [[a, b], [c, d]] of a pathway. *)
Record table : Type := mkTable2
  { DA_in_pathway : nat;
    compound_in_pathway_not_DA : nat;
    DA_not_in_pathway : nat;
    compound_not_in_pathway_not_DA : nat }.

Definition contingency (DA_list background_list pathway_compounds : list string)
  : table :=
  {| DA_in_pathway :=
       length (inter (set_ DA_list) (set_ pathway_compounds));
     DA_not_in_pathway :=
       length (Np.setdiff1d DA_list pathway_compounds);
     compound_in_pathway_not_DA :=
       length (inter (set_ pathway_compounds)
                     (set_ (Np.setdiff1d background_list DA_list)));
     compound_not_in_pathway_not_DA :=
       length (Np.setdiff1d (Np.setdiff1d background_list DA_list)
                            pathway_compounds) |}.

Definition result_columns : list string :=
  ["Pathway_ID"; "Pathway_name"; "Hits"; "Coverage"; "P-value"; "P-adjust"].

(** Lines 90-99: the correction of the p-values and the result frame.  The
    division by zero that the correction raises on an empty list of
    p-values is caught, and the frame is then built from five columns. *)
Definition tabulate (st : acc) : result (Table value) :=
  match Multitest.fdr_bh (pvalues st) with
  | Ok padj =>
      pd_DataFrame
        (zip_cons (map VStr (pathways_with_compounds st))
           (zip_cons (map VCell (pathway_names_with_compounds st))
              (zip_cons (map VStr (pathway_ratio st))
                 (zip_cons (map VStr (pathway_coverage st))
                    (zip_cons (map VNum (pvalues st))
                       (zip_last (map VNum padj)))))))
        result_columns
  | Raise ZeroDivisionError =>
      let padj := repeat 1%Q (length (pvalues st)) in
      pd_DataFrame
        (zip_cons (map VStr (pathways_with_compounds st))
           (zip_cons (map VCell (pathway_names_with_compounds st))
              (zip_cons (map VStr (pathway_ratio st))
                 (zip_cons (map VNum (pvalues st))
                    (zip_last (map VNum padj))))))
        result_columns
  | Raise e => Raise e
  end.

Section Analysis.

(** [list(set(l))]: the order in which a set lists its elements is not
    fixed by the language (it changes with the hash seed of the run). *)
Variable set_order : list cell -> list cell.

(** Lines 58-59: the compounds of a row, without repeats and without the
    missing value.  What is left are strings. *)
Definition compounds_of (cells : list cell) : list string :=
  let pathway_compounds := set_order cells in
  map str (filter (fun i => negb (String.eqb (str i) "nan")) pathway_compounds).

(** The body of the loop over the pathways. *)
Definition loop_body (DA_list background_list : list string) (KEGG_pathways : Frame)
    (pathway_dict : list (string * cell)) (st : acc) (pathway : string)
  : result acc :=
  cells <- loc_tolist KEGG_pathways pathway ;;
  let pathway_compounds := compounds_of cells in
  if (length pathway_compounds =? 0) || (length pathway_compounds <? 2) then Ok st
  else
    let t := contingency DA_list background_list pathway_compounds in
    let a := DA_in_pathway t in
    let b := compound_in_pathway_not_DA t in
    if (a =? 0) || (b + a <? 2) then Ok st
    else
      name <- dict_get pathway_dict pathway ;;
      let pvalue :=
        Fisher.fisher_exact_greater a b (DA_not_in_pathway t)
                                    (compound_not_in_pathway_not_DA t) in
      Ok {| pathway_count := pathway_count st + 1;
            pathway_ratio :=
              pathway_ratio st ++ [(str_int a ++ "/" ++ str_int (b + a))%string];
            pathway_coverage :=
              pathway_coverage st
              ++ [(str_int (b + a) ++ "/" ++ str_int (length pathway_compounds))%string];
            pathways_with_compounds := pathways_with_compounds st ++ [pathway];
            pathway_names_with_compounds := pathway_names_with_compounds st ++ [name];
            pvalues := pvalues st ++ [pvalue] |}.

Definition over_representation_analysis
    (DA_list background_list : list string) (pathways_df : Frame)
  : result (Table value) :=
  let KEGG_pathways := dropna_all (tl (columns pathways_df)) pathways_df in
  let pathways := map fst (rows KEGG_pathways) in
  pathway_names <- getitem_tolist "Pathway_name" KEGG_pathways ;;
  let pathway_dict := combine pathways pathway_names in
  let KEGG_pathways := drop_column "Pathway_name" KEGG_pathways in
  st <- for_each pathways
          (loop_body DA_list background_list KEGG_pathways pathway_dict) acc_init ;;
  tabulate st.

End Analysis.

(** One way a set may list its elements: in order of last occurrence. *)
Definition cell_eq_dec (x y : cell) : {x = y} + {x <> y}.
Proof. decide equality. apply string_dec. Defined.

Definition listing (l : list cell) : list cell := nodup cell_eq_dec l.

End ORA.

(** ** What the analysis records, pathway by pathway

    The body of the loop read as a function of the row of a pathway: the
    row passes the two filters or not, and a row that passes yields the
    fields of its result row.  Lemmas [loop_body_unique] and
    [analysis_well_formed] below relate these definitions to the loop. *)

Module Hits.

Import ORA.

(** What the loop records for a pathway that passes its filters. *)
Record hit : Type := mkHit
  { hit_id : string;
    hit_name : cell;
    hit_ratio : string;
    hit_coverage : string;
    hit_pvalue : Q }.

(** The cell of a row under ["Pathway_name"], and its other cells. *)
Definition name_of (cols : list string) (cells : list cell) : cell :=
  hd NaN (select (String.eqb "Pathway_name") cols cells).

Definition slots (cols : list string) (cells : list cell) : list cell :=
  select (fun c => negb (String.eqb "Pathway_name" c)) cols cells.

(** The rows that are left after [dropna]. *)
Definition present (df : Frame) : list (string * list cell) :=
  rows (dropna_all (tl (columns df)) df).

(** The two filters of the loop (lines 60 and 74). *)
Definition passes (DA_list background_list pathway_compounds : list string) : bool :=
  let t := contingency DA_list background_list pathway_compounds in
  negb ((length pathway_compounds =? 0) || (length pathway_compounds <? 2))
  && negb ((DA_in_pathway t =? 0)
           || (compound_in_pathway_not_DA t + DA_in_pathway t <? 2)).

Definition hit_of (set_order : list cell -> list cell)
    (DA_list background_list : list string) (cols : list string)
    (r : string * list cell) : option hit :=
  let pathway_compounds := compounds_of set_order (slots cols (snd r)) in
  let t := contingency DA_list background_list pathway_compounds in
  let a := DA_in_pathway t in
  let b := compound_in_pathway_not_DA t in
  if passes DA_list background_list pathway_compounds then
    Some {| hit_id := fst r;
            hit_name := name_of cols (snd r);
            hit_ratio := (str_int a ++ "/" ++ str_int (b + a))%string;
            hit_coverage :=
              (str_int (b + a) ++ "/" ++ str_int (length pathway_compounds))%string;
            hit_pvalue :=
              Fisher.fisher_exact_greater a b (DA_not_in_pathway t)
                (compound_not_in_pathway_not_DA t) |}
  else None.

Fixpoint filter_map {A B : Type} (f : A -> option B) (l : list A) : list B :=
  match l with
  | [] => []
  | x :: l' => match f x with
               | Some y => y :: filter_map f l'
               | None => filter_map f l'
               end
  end.

(** The pathways that pass the filters, in the order of the frame. *)
Definition hits (set_order : list cell -> list cell)
    (DA_list background_list : list string) (df : Frame) : list hit :=
  filter_map (hit_of set_order DA_list background_list (columns df)) (present df).

(** The row of the result frame for a hit, given all the p-values. *)
Definition row_of (pvals : list Q) (h : hit) : list value :=
  [VStr (hit_id h); VCell (hit_name h); VStr (hit_ratio h); VStr (hit_coverage h);
   VNum (hit_pvalue h); VNum (Qred (Multitest.bh_adjust pvals (hit_pvalue h)))].

(** The index label of a row is carried by no other row. *)
Definition unique_label (l : list (string * list cell)) (r : string * list cell) : Prop :=
  filter (fun r' => String.eqb (fst r) (fst r')) l = [r].

(** The frame has exactly one column of pathway names, and no two of its
    rows (after [dropna]) carry the same pathway identifier. *)
Definition well_formed (df : Frame) : Prop :=
  count_occ string_dec (columns df) "Pathway_name" = 1
  /\ forall r, In r (present df) -> unique_label (present df) r.

End Hits.

(** ** The order in which a set lists its elements *)

Module SetOrder.

Import ORA.

(** What the language promises of [list(set(l))]: the elements of [l], each
    string once.  (Missing values are [float] objects that are not equal to
    themselves, so a set may hold several; line 59 discards them.) *)
Definition lists_sets (set_order : list cell -> list cell) : Prop :=
  forall l,
    (forall x, In x (set_order l) <-> In x l)
    /\ NoDup (filter (fun c => negb (isna c)) (set_order l)).

(** The compounds of a row, without repeats and without the missing
    value, in a listing that does not depend on [set_order]. *)
Definition distinct_compounds (cells : list cell) : list string :=
  nodup string_dec
    (map str (filter (fun i => negb (String.eqb (str i) "nan")) cells)).

End SetOrder.

(** ** t_tests *)

Module TTest.

(** A cell of the abundance matrix and a result of the tests: a binary64
    number.  The operations are those of IEEE 754 as numpy applies them:
    every result is rounded to the nearest number (ties to even), and
    nothing raises, a division by zero gives an infinity or
    not-a-number. *)
Definition fnum : Type := spec_float.

Definition prec : Z := 53%Z.
Definition emax : Z := 1024%Z.

Definition FNaN : fnum := S754_nan.
Definition fzero : fnum := S754_zero false.

Definition fadd : fnum -> fnum -> fnum := SFadd prec emax.
Definition fsub : fnum -> fnum -> fnum := SFsub prec emax.
Definition fmul : fnum -> fnum -> fnum := SFmul prec emax.
Definition fdiv : fnum -> fnum -> fnum := SFdiv prec emax.
Definition fsqrt : fnum -> fnum := SFsqrt prec emax.
Definition fabs : fnum -> fnum := SFabs.
Definition fopp : fnum -> fnum := SFopp.

(** [float(z)], for a Python integer. *)
Definition of_Z (z : Z) : fnum := binary_normalize prec emax z 0%Z false.

Definition of_nat (n : nat) : fnum := of_Z (Z.of_nat n).

Definition fone : fnum := of_Z 1.
Definition ftwo : fnum := of_Z 2.
Definition fhalf : fnum := fdiv fone ftwo.


Definition is_zero (x : fnum) : bool :=
  match x with
  | S754_zero _ => true
  | _ => false
  end.




(** A column of the abundance matrix: abundances, or the integer codes
    that [t_tests] stores under ["Target"]. *)
Inductive coldata : Type :=
| Floats (v : list fnum)
| Codes (v : list Z).

(** The values of a column in the float64 array that [ttest_ind] makes of
    a frame. *)
Definition to_floats (c : coldata) : list fnum :=
  match c with
  | Floats v => v
  | Codes v => map of_Z v
  end.

(** The abundance matrix: the number of rows (samples) and the columns in
    order, each under its label. *)
Record Matrix : Type := mkMatrix
  { nrows : nat;
    cols : list (string * coldata) }.

Definition labels (m : Matrix) : list string := map fst (cols m).

(** [pd.factorize(classes)[0]]: the code of a label is its rank in order of
    first appearance. *)
Definition first_seen (classes : list string) : list string :=
  fold_left (fun seen c => if mem c seen then seen else seen ++ [c]) classes [].

Definition code_of (uniques : list string) (c : string) : Z :=
  match index_of c uniques with
  | Some i => Z.of_nat i
  | None => (-1)%Z
  end.

Definition factorize (classes : list string) : list Z :=
  map (code_of (first_seen classes)) classes.

(** The frame on [n] new rows: every cell is missing. *)
Definition reindex (m : Matrix) (n : nat) : Matrix :=
  mkMatrix n (map (fun c => (fst c, Floats (repeat FNaN n))) (cols m)).

(** A frame that has no rows takes the rows of the values assigned to it,
    when there are some; its columns are filled with not-a-number. *)
Definition ensure_valid_index (m : Matrix) (values : list Z) : Matrix :=
  if (nrows m =? 0) && negb (length values =? 0)
  then reindex m (length values)
  else m.

(** [matrix[label] = values], in place: a column under [label] is
    overwritten where it stands, otherwise the column is appended.  The
    assignment raises when [values] has not one entry per row. *)
Definition setitem (m : Matrix) (label : string) (values : list Z) : result Matrix :=
  let m := ensure_valid_index m values in
  if length values =? nrows m then
    if mem label (labels m)
    then Ok (mkMatrix (nrows m)
               (map (fun c => if String.eqb label (fst c)
                              then (fst c, Codes values) else c) (cols m)))
    else Ok (mkMatrix (nrows m) (cols m ++ [(label, Codes values)]))
  else Raise ValueError.

(** [matrix[label] == 0] and [matrix[label] != 0], row by row. *)
Definition eq_zero (m : Matrix) (label : string) : result (list bool) :=
  match find (fun c => String.eqb label (fst c)) (cols m) with
  | Some (_, Codes v) => Ok (map (fun z => Z.eqb z 0) v)
  | Some (_, Floats v) => Ok (map (fun x => SFeqb x fzero) v)
  | None => Raise KeyError
  end.

Fixpoint select_rows {A : Type} (mask : list bool) (v : list A) : list A :=
  match mask, v with
  | b :: mask', x :: v' => if b then x :: select_rows mask' v' else select_rows mask' v'
  | _, _ => []
  end.

(** The two samples of a column: the rows of code 0, and the others. *)
Definition disease_of (classes : list string) (c : string * coldata) : list fnum :=
  select_rows (map (fun z => Z.eqb z 0) (factorize classes)) (to_floats (snd c)).

Definition ctrl_of (classes : list string) (c : string * coldata) : list fnum :=
  select_rows (map negb (map (fun z => Z.eqb z 0) (factorize classes)))
              (to_floats (snd c)).

(** [matrix[mask].copy()] followed by [drop([label], axis=1, inplace=True)]
    on the copy: the rows the mask selects, of every column but [label]. *)
Definition rows_without (m : Matrix) (mask : list bool) (label : string)
  : list (list fnum) :=
  map (fun c => select_rows mask (to_floats (snd c)))
      (filter (fun c => negb (String.eqb label (fst c))) (cols m)).

(** A field of the result frame of [t_tests]. *)
Inductive tvalue : Type :=
| TStr (s : string)
| TNum (x : fnum).

Section Tests.

(** What [ttest_ind] takes from numpy for one sample of a column: its mean,
    and its variance with one degree of freedom less than it has values.
    Both add up the values of the sample, and a sum of binary64 numbers
    depends on the order of the additions; numpy adds the rows one after
    the other or in blocks, as the frame lies in memory.  The tests are
    stated for any two such functions. *)
Variable np_mean : list fnum -> fnum.
Variable np_var : list fnum -> fnum.

(** [scipy.special.stdtr(df, t)]: the distribution function of Student's t
    with [df] degrees of freedom. *)
Variable stdtr : fnum -> fnum -> fnum.

(** [multipletests(pvals, 0.05, method=...)[1]], for any of the methods of
    statsmodels. *)
Variable multipletests : list fnum -> string -> result (list fnum).

(** The degrees of freedom and the denominator of the statistic, for two
    samples of variances [v1], [v2] and sizes [n1], [n2]: the variances
    are pooled ([equal_var=True]). *)
Definition equal_var_ttest_denom (v1 : fnum) (n1 : nat) (v2 : fnum) (n2 : nat)
  : fnum * fnum :=
  let df := fsub (of_nat (n1 + n2)) ftwo in
  let svar := fdiv (fadd (fmul (of_nat (n1 - 1)) v1) (fmul (of_nat (n2 - 1)) v2)) df in
  let denom := fsqrt (fmul svar (fadd (fdiv fone (of_nat n1)) (fdiv fone (of_nat n2)))) in
  (df, denom).

(** The statistic with its two-sided p-value. *)
Definition ttest_finish (df t : fnum) : fnum * fnum :=
  (t, fmul (stdtr df (fopp (fabs t))) ftwo).

(** [scipy.stats.ttest_ind(a, b)] on one column: the statistic is the
    difference of the means over the denominator above.  An empty sample
    gives not-a-number. *)
Definition ttest_ind_col (a b : list fnum) : fnum * fnum :=
  let n1 := length a in
  let n2 := length b in
  if (n1 =? 0) || (n2 =? 0) then (FNaN, FNaN)
  else
    let (df, denom) := equal_var_ttest_denom (np_var a) n1 (np_var b) n2 in
    let d := fsub (np_mean a) (np_mean b) in
    ttest_finish df (fdiv d denom).

(** [ttest_ind(disease, ctrl)], column by column. *)
Definition ttest_ind (disease ctrl : list (list fnum)) : list (fnum * fnum) :=
  Multitest.map2 ttest_ind_col disease ctrl.

(** [t_tests] takes the caller's matrix and leaves it as the first
    component of what it returns. *)
Definition t_tests (matrix : Matrix) (classes : list string)
    (multiple_correction_method : string) (return_stat : bool)
  : Matrix * result (Table tvalue) :=
  let metabolites := labels matrix in
  match setitem matrix "Target" (factorize classes) with
  | Raise e => (matrix, Raise e)
  | Ok matrix =>
      (matrix,
       is_disease <- eq_zero matrix "Target" ;;
       let disease := rows_without matrix is_disease "Target" in
       let ctrl := rows_without matrix (map negb is_disease) "Target" in
       let pvalues := map snd (ttest_ind disease ctrl) in
       let tstat := map fst (ttest_ind disease ctrl) in
       padj <- multipletests pvalues multiple_correction_method ;;
       if return_stat then
         pd_DataFrame
           (zip_cons (map TStr metabolites)
              (zip_cons (map TNum pvalues)
                 (zip_cons (map TNum padj) (zip_last (map TNum tstat)))))
           ["Metabolite"; "P-value"; "P-adjust"; "t-statistic"]
       else
         pd_DataFrame
           (zip_cons (map TStr metabolites)
              (zip_cons (map TNum pvalues) (zip_last (map TNum padj))))
           ["Metabolite"; "P-value"; "P-adjust"])
  end.

End Tests.

(** The sum of the values, added one after the other: what numpy computes
    for a sample of fewer than eight values. *)
Definition add_in_order (v : list fnum) : fnum := fold_left fadd v fzero.

(** [np.mean] of a sample. *)
Definition mean_in_order (v : list fnum) : fnum :=
  fdiv (add_in_order v) (of_nat (length v)).

(** The variance that [ttest_ind] takes for a sample: the mean of the
    squared deviations from the mean, times [n / (n - 1)]; for a sample of
    one value, 0. *)
Definition var_in_order (v : list fnum) : fnum :=
  let n := length v in
  if n =? 1 then fzero
  else
    let m := mean_in_order v in
    fmul (mean_in_order (map (fun x => fmul (fsub x m) (fsub x m)) v))
         (fdiv (of_nat n) (of_nat (n - 1))).

(** The distribution function of Student's t with 2 degrees of freedom has
    a closed form, [1/2 + t / (2 sqrt(2 + t^2))]; here with every operation
    rounded. *)
Definition stdtr_2 (df t : fnum) : fnum :=
  fadd fhalf (fdiv t (fmul ftwo (fsqrt (fadd ftwo (fmul t t))))).

(** [multipletests] with [method="bonferroni"]: every p-value times the
    number of tests, and 1 where that is more than 1; not-a-number stays. *)
Definition bonferroni (pvals : list fnum) (method : string) : result (list fnum) :=
  let ntests := length pvals in
  if ntests =? 0 then Raise ZeroDivisionError
  else Ok (map (fun p => let q := fmul p (of_nat ntests) in
                         if SFltb fone q then fone else q) pvals).

End TTest.

(** ** Data for the examples *)

Module Examples.

Import ORA TTest.

Definition DA_example : list string := ["C1"; "C2"].

Definition background_example : list string := ["C1"; "C2"; "C3"; "C4"].

(** One pathway, of compounds C1 and C3. *)
Definition balanced_frame : Frame :=
  mkFrame ["Pathway_name"; "c1"; "c2"]
    [("P1", [Str "Pathway one"; Str "C1"; Str "C3"])].

(** Four pathways: the second has no compound, the fourth has one. *)
Definition pathways_example : Frame :=
  mkFrame ["Pathway_name"; "c1"; "c2"; "c3"]
    [("P1", [Str "Pathway one"; Str "C1"; Str "C3"; NaN]);
     ("P2", [Str "Pathway two"; NaN; NaN; NaN]);
     ("P3", [Str "Pathway three"; Str "C1"; Str "C2"; Str "C1"]);
     ("P4", [Str "Pathway four"; Str "C4"; NaN; NaN])].

(** The same pathways, in another order. *)
Definition pathways_reordered : Frame :=
  mkFrame ["Pathway_name"; "c1"; "c2"; "c3"]
    [("P3", [Str "Pathway three"; Str "C1"; Str "C2"; Str "C1"]);
     ("P4", [Str "Pathway four"; Str "C4"; NaN; NaN]);
     ("P2", [Str "Pathway two"; NaN; NaN; NaN]);
     ("P1", [Str "Pathway one"; Str "C1"; Str "C3"; NaN])].

Definition two_classes : list string := ["case"; "case"; "control"; "control"].

(** Two metabolites, four samples; the first metabolite has the same two
    values in both classes. *)
Definition abundances : Matrix :=
  mkMatrix 4 [("m1", Floats (map of_Z [1; 2; 1; 2]%Z));
              ("m2", Floats (map of_Z [3; 5; 4; 4]%Z))].


(** A matrix one of whose columns is labelled ["Target"]. *)
Definition with_target : Matrix :=
  mkMatrix 4 [("Target", Floats (map of_Z [1; 2; 3; 4]%Z));
              ("m1", Floats (map of_Z [1; 2; 1; 3]%Z))].

End Examples.

(** ** The first class of the samples *)

Module Classes.

(** The samples of the first class: those that carry the label of the
    first sample. *)
Definition in_first_class (classes : list string) : list bool :=
  match classes with
  | [] => []
  | c0 :: _ => map (fun c => String.eqb c c0) classes
  end.

End Classes.

(** ** More data for the examples *)

Module MoreExamples.

Import ORA.

(** A frame of pathways without a column of names. *)
Definition nameless_frame : Frame :=
  mkFrame ["c1"; "c2"] [("P1", [Str "C1"; Str "C3"])].

(** Two rows carry the same pathway identifier. *)
Definition repeated_frame : Frame :=
  mkFrame ["Pathway_name"; "c1"; "c2"]
    [("P1", [Str "Pathway one"; Str "C1"; Str "C3"]);
     ("P1", [Str "Pathway one again"; Str "C1"; Str "C2"])].

(** Three labels for the four samples: the last two both differ from the
    first. *)
Definition three_classes : list string := ["case"; "case"; "control"; "other"].

Definition one_class : list string := ["case"; "case"; "case"; "case"].

(** The binary64 number nearest to 0.1. *)
Definition tenth : TTest.fnum := TTest.fdiv TTest.fone (TTest.of_Z 10).

Definition six_samples : list string :=
  ["case"; "case"; "case"; "control"; "control"; "control"].

(** One metabolite, with the same abundance in all six samples. *)
Definition tenths : TTest.Matrix :=
  TTest.mkMatrix 6 [("m1", TTest.Floats (repeat tenth 6))].

End MoreExamples.

(** * Properties *)

(** ** Membership, sorting and counting *)

Lemma mem_In (x : string) (l : list string) : mem x l = true <-> In x l.
Proof.
  unfold mem. rewrite existsb_exists. split.
  - intros [y [Hy He]]. apply String.eqb_eq in He. now subst.
  - intros H. exists x. split; [assumption | apply String.eqb_refl].
Qed.

Lemma mem_ext (l l' : list string) :
  (forall x, In x l <-> In x l') -> forall x, mem x l = mem x l'.
Proof.
  intros H x. apply eq_true_iff_eq. rewrite !mem_In. apply H.
Qed.

Lemma insert_sorted_perm (x : string) (l : list string) :
  Permutation (x :: l) (Np.insert_sorted x l).
Proof.
  induction l as [|y l IH]; simpl.
  - apply Permutation_refl.
  - destruct (String.leb x y).
    + apply Permutation_refl.
    + eapply perm_trans; [apply perm_swap | apply perm_skip, IH].
Qed.

Lemma sort_perm (l : list string) : Permutation l (Np.sort l).
Proof.
  induction l as [|x l IH]; simpl.
  - apply perm_nil.
  - eapply perm_trans; [apply perm_skip, IH | apply insert_sorted_perm].
Qed.

Lemma unique_In (l : list string) (x : string) : In x (Np.unique l) <-> In x l.
Proof.
  unfold Np.unique. split; intros H.
  - apply (nodup_In string_dec). eapply Permutation_in; [|exact H].
    apply Permutation_sym, sort_perm.
  - eapply Permutation_in; [apply sort_perm|]. now apply nodup_In.
Qed.

Lemma filter_perm_length {A : Type} (f : A -> bool) (l l' : list A) :
  Permutation l l' -> length (filter f l) = length (filter f l').
Proof.
  intros H. apply Permutation_length. clear -H.
  induction H; simpl.
  - apply perm_nil.
  - destruct (f x); [apply perm_skip|]; assumption.
  - destruct (f x), (f y); try apply Permutation_refl. apply perm_swap.
  - eapply perm_trans; eassumption.
Qed.

Lemma nodup_filter (f : string -> bool) (l : list string) :
  nodup string_dec (filter f l) = filter f (nodup string_dec l).
Proof.
  induction l as [|x l IH]; simpl; [reflexivity|].
  destruct (in_dec string_dec x l) as [Hin|Hin].
  - destruct (f x) eqn:Hf; simpl; [|assumption].
    destruct (in_dec string_dec x (filter f l)) as [_|Hn]; [assumption|].
    exfalso. apply Hn, filter_In. now split.
  - destruct (f x) eqn:Hf; simpl; rewrite ?Hf; [|assumption].
    destruct (in_dec string_dec x (filter f l)) as [Hy|_].
    + exfalso. apply Hin. apply filter_In in Hy. tauto.
    + now rewrite IH.
Qed.

(** [len(np.setdiff1d(ar1, ar2))] counts the distinct values of [ar1] that
    are not in [ar2]. *)
Lemma setdiff1d_length (ar1 ar2 : list string) :
  length (Np.setdiff1d ar1 ar2)
  = length (filter (fun x => negb (mem x ar2)) (nodup string_dec ar1)).
Proof.
  unfold Np.setdiff1d, Np.unique.
  rewrite (filter_ext _ (fun x => negb (mem x ar2))).
  - apply filter_perm_length, Permutation_sym, sort_perm.
  - intros x. f_equal. apply mem_ext. intros y. apply unique_In.
Qed.

Lemma setdiff1d_ext (ar1 ar2 ar2' : list string) :
  (forall x, In x ar2 <-> In x ar2') ->
  Np.setdiff1d ar1 ar2 = Np.setdiff1d ar1 ar2'.
Proof.
  intros H. unfold Np.setdiff1d. apply filter_ext. intros x. f_equal.
  apply mem_ext. intros y. rewrite !unique_In. apply H.
Qed.

(** ** The Benjamini-Hochberg adjustment *)

Section Adjustment.

Import Multitest.

Lemma insert_by_perm x l : Permutation (x :: l) (insert_by x l).
Proof.
  induction l as [|y l IH]; simpl.
  - apply Permutation_refl.
  - destruct (Qle_bool (snd x) (snd y)).
    + apply Permutation_refl.
    + eapply perm_trans; [apply perm_swap | apply perm_skip, IH].
Qed.

Lemma sort_indexed_perm p :
  Permutation (combine (seq 0 (length p)) p) (sort_indexed p).
Proof.
  unfold sort_indexed. induction (combine (seq 0 (length p)) p) as [|x l IH]; simpl.
  - apply perm_nil.
  - eapply perm_trans; [apply perm_skip, IH | apply insert_by_perm].
Qed.

Definition le_snd (x y : nat * Q) : Prop := (snd x <= snd y)%Q.

Lemma insert_by_sorted x l :
  StronglySorted le_snd l -> StronglySorted le_snd (insert_by x l).
Proof.
  induction 1 as [|y l Hs IH Hall]; simpl.
  - constructor; constructor.
  - destruct (Qle_bool (snd x) (snd y)) eqn:E.
    + apply Qle_bool_iff in E. constructor.
      * constructor; assumption.
      * constructor; [exact E|].
        eapply Forall_impl; [|exact Hall]. intros z Hz. unfold le_snd in *.
        eapply Qle_trans; eassumption.
    + assert (Hyx : (snd y <= snd x)%Q).
      { destruct (Qlt_le_dec (snd x) (snd y)) as [Hlt|Hle]; [|exact Hle].
        apply Qlt_le_weak in Hlt. apply Qle_bool_iff in Hlt. congruence. }
      constructor; [exact IH|].
      eapply Permutation_Forall; [apply insert_by_perm|].
      constructor; assumption.
Qed.

Lemma sort_indexed_sorted p : StronglySorted le_snd (sort_indexed p).
Proof.
  unfold sort_indexed. induction (combine (seq 0 (length p)) p); simpl.
  - constructor.
  - now apply insert_by_sorted.
Qed.


Lemma frac_pos i n : 0 < i -> 0 < n -> (0 < frac i n)%Q.
Proof.
  intros Hi Hn. unfold frac. apply Qlt_shift_div_l.
  - change 0%Q with (inject_Z 0). rewrite <- Zlt_Qlt. lia.
  - rewrite Qmult_0_l. change 0%Q with (inject_Z 0). rewrite <- Zlt_Qlt. lia.
Qed.

Lemma frac_le i i' n : i <= i' -> (frac i n <= frac i' n)%Q.
Proof.
  intros H. unfold frac, Qdiv. apply Qmult_le_compat_r.
  - rewrite <- Zle_Qle. lia.
  - apply Qinv_le_0_compat. change 0%Q with (inject_Z 0). rewrite <- Zle_Qle. lia.
Qed.

Lemma div_antitone (x d1 d2 : Q) :
  (0 <= x -> 0 < d1 -> d1 <= d2 -> x / d2 <= x / d1)%Q.
Proof.
  intros Hx H1 H2.
  assert (H0 : (0 < d2)%Q) by (eapply Qlt_le_trans; eassumption).
  apply Qle_shift_div_r; [exact H0|].
  apply Qle_trans with (x / d1 * d1)%Q.
  - rewrite Qmult_comm, Qmult_div_r; [apply Qle_refl|].
    intros E. rewrite E in H1. discriminate.
  - rewrite (Qmult_comm _ d1), (Qmult_comm _ d2).
    apply Qmult_le_compat_r; [exact H2|].
    apply Qle_shift_div_l; [exact H1|]. now rewrite Qmult_0_l.
Qed.

Lemma count_le_compat (l : list Q) (x y : Q) :
  (x == y)%Q -> count_le l x = count_le l y.
Proof.
  intros E. unfold count_le. f_equal. apply filter_ext. intros z.
  now rewrite E.
Qed.

Lemma count_le_cons (l : list Q) (x t : Q) :
  (x <= t)%Q -> count_le (x :: l) t = S (count_le l t).
Proof.
  intros H. unfold count_le. simpl. apply Qle_bool_iff in H. now rewrite H.
Qed.

Lemma fold_min_le_init (l : list Q) : (fold_right Qmin 1 l <= 1)%Q.
Proof.
  induction l as [|x l IH]; simpl.
  - apply Qle_refl.
  - eapply Qle_trans; [apply Q.le_min_r | exact IH].
Qed.

Lemma fold_min_le_in (f : Q -> Q) (l : list Q) (t : Q) :
  In t l -> (fold_right Qmin 1 (map f l) <= f t)%Q.
Proof.
  induction l as [|x l IH]; simpl; [tauto|].
  intros [->|H].
  - apply Q.le_min_l.
  - eapply Qle_trans; [apply Q.le_min_r | now apply IH].
Qed.

Lemma filter_all {A : Type} (f : A -> bool) (l : list A) :
  Forall (fun x => f x = true) l -> filter f l = l.
Proof.
  induction 1 as [|x l Hx _ IH]; simpl; [reflexivity|].
  now rewrite Hx, IH.
Qed.

Lemma Forall2_impl_in {A B : Type} (R R' : A -> B -> Prop) (l : list A) (l' : list B) :
  (forall a b, In b l' -> R a b -> R' a b) -> Forall2 R l l' -> Forall2 R' l l'.
Proof.
  intros H F. induction F as [|a b l l' Hab _ IH]; constructor.
  - apply H; [now left | exact Hab].
  - apply IH. intros a' b' Hin. apply H. now right.
Qed.

Section Core.

Variable n : nat.
Hypothesis n_pos : 0 < n.

(** The sorted p-values from position [j] on, each over its [ecdf] factor. *)
Definition raw_from (j : nat) (l : list Q) : list Q :=
  map2 Qdiv l (map (fun i => frac i n) (seq (S j) (length l))).

Definition term (j : nat) (L : list Q) (t : Q) : Q :=
  (t / frac (j + count_le L t) n)%Q.

Definition least_from (j : nat) (L : list Q) (x : Q) : Q :=
  fold_right Qmin 1%Q (map (term j L) (filter (fun t => Qle_bool x t) L)).

Lemma term_compat j L (x y : Q) : (x == y)%Q -> (term j L x == term j L y)%Q.
Proof.
  intros E. unfold term. rewrite (count_le_compat L x y E). now rewrite E.
Qed.

Lemma term_cons j x l t :
  (x <= t)%Q -> term j (x :: l) t = term (S j) l t.
Proof.
  intros H. unfold term. now rewrite (count_le_cons l x t H), Nat.add_succ_r.
Qed.

Lemma cummin_right_sorted (l : list Q) (j : nat) :
  StronglySorted Qle l -> Forall (Qle 0) l ->
  Forall2 (fun cv x => (Qmin 1 cv == least_from j l x)%Q)
          (cummin_right (raw_from j l)) l.
Proof.
  revert j. induction l as [|x l IH]; intros j Hs Hn.
  - constructor.
  - inversion Hs as [|? ? Hs' Hall]; inversion Hn as [|? ? Hx Hn']; subst.
    specialize (IH (S j) Hs' Hn').
    assert (Hmap : forall y,
               map (term j (x :: l)) (filter (fun t => Qle_bool y t) l)
               = map (term (S j) l) (filter (fun t => Qle_bool y t) l)).
    { intros y. apply map_ext_in. intros t Ht. apply filter_In in Ht.
      apply term_cons. rewrite Forall_forall in Hall. apply Hall, Ht. }
    assert (Hxx : Qle_bool x x = true) by (apply Qle_bool_iff, Qle_refl).
    assert (Htail : Forall2 (fun cv y => (Qmin 1 cv == least_from j (x :: l) y)%Q)
                            (cummin_right (raw_from (S j) l)) l).
    { revert IH. apply Forall2_impl_in. intros cv y Hy E.
      rewrite E. unfold least_from. simpl filter.
      destruct (Qle_bool y x) eqn:Eyx; simpl; rewrite Hmap; [|reflexivity].
      symmetry. apply Q.min_r.
      eapply Qle_trans.
      - apply (fold_min_le_in (term (S j) l) _ y). apply filter_In. split; [exact Hy|].
        apply Qle_bool_iff, Qle_refl.
      - rewrite <- (term_cons j x l y).
        + apply Qle_lteq. right. apply term_compat.
          apply Qle_antisym; [now apply Qle_bool_iff|].
          rewrite Forall_forall in Hall. now apply Hall.
        + rewrite Forall_forall in Hall. now apply Hall. }
    change (raw_from j (x :: l)) with ((x / frac (S j) n)%Q :: raw_from (S j) l).
    change (cummin_right ((x / frac (S j) n)%Q :: raw_from (S j) l))
      with (match cummin_right (raw_from (S j) l) with
            | [] => [(x / frac (S j) n)%Q]
            | m :: _ => Qmin (x / frac (S j) n) m :: cummin_right (raw_from (S j) l)
            end).
    destruct (cummin_right (raw_from (S j) l)) as [|m rest] eqn:Ecr.
    + inversion IH; subst. constructor; [|constructor].
      unfold least_from. simpl. rewrite Hxx. simpl.
      unfold term, count_le. simpl. rewrite Hxx. simpl.
      rewrite Nat.add_1_r. apply Q.min_comm.
    + destruct l as [|y l']; [inversion IH|].
      assert (Hm : (Qmin 1 m == least_from (S j) (y :: l') y)%Q)
        by (inversion IH; assumption).
      constructor; [|exact Htail].
      assert (Hall_y : Forall (fun t => Qle_bool y t = true) (y :: l')).
      { inversion Hs' as [|? ? _ Hy]; subst. constructor.
        - apply Qle_bool_iff, Qle_refl.
        - eapply Forall_impl; [|exact Hy]. intros t. apply Qle_bool_iff. }
      assert (Hall_x : Forall (fun t => Qle_bool x t = true) (y :: l')).
      { eapply Forall_impl; [|exact Hall]. intros t. apply Qle_bool_iff. }
      unfold least_from in Hm. rewrite (filter_all (fun t => Qle_bool y t) _ Hall_y) in Hm.
      unfold least_from.
      rewrite (filter_all (fun t => Qle_bool x t) (x :: y :: l'))
        by (constructor; assumption).
      change (map (term j (x :: y :: l')) (x :: y :: l'))
        with (term j (x :: y :: l') x :: map (term j (x :: y :: l')) (y :: l')).
      rewrite <- (filter_all (fun t => Qle_bool x t) _ Hall_x) at 3. rewrite Hmap.
      rewrite (filter_all (fun t => Qle_bool x t) _ Hall_x).
      set (R := fold_right Qmin 1%Q (map (term (S j) (y :: l')) (y :: l'))) in *.
      simpl fold_right. fold R.
      set (rx := (x / frac (S j) n)%Q).
      transitivity (Qmin rx R).
      { rewrite Q.min_assoc, (Q.min_comm 1 rx), <- Q.min_assoc.
        apply Q.min_compat; [reflexivity | exact Hm]. }
      destruct (count_le (y :: l') x) as [|c] eqn:Ec.
      * unfold term. rewrite (count_le_cons _ x x (Qle_refl x)), Ec, Nat.add_1_r.
        reflexivity.
      * assert (Hex : exists t, In t (y :: l') /\ Qle_bool t x = true).
        { unfold count_le in Ec.
          destruct (filter (fun y0 => Qle_bool y0 x) (y :: l')) as [|t ?] eqn:Ef;
            [discriminate|].
          exists t. apply (filter_In (fun y0 => Qle_bool y0 x)). rewrite Ef. now left. }
        destruct Hex as [t [Ht Htx]].
        assert (Etx : (t == x)%Q).
        { apply Qle_antisym; [now apply Qle_bool_iff|].
          rewrite Forall_forall in Hall. now apply Hall. }
        assert (HR : (R <= term j (x :: y :: l') x)%Q).
        { eapply Qle_trans; [apply (fold_min_le_in (term (S j) (y :: l')) _ t Ht)|].
          rewrite <- (term_cons j x (y :: l') t).
          - apply Qle_lteq. right. now apply term_compat.
          - rewrite Forall_forall in Hall. now apply Hall. }
        assert (Hrx : (term j (x :: y :: l') x <= rx)%Q).
        { unfold term, rx. apply div_antitone; [exact Hx | |].
          - apply frac_pos; [lia | exact n_pos].
          - apply frac_le. rewrite (count_le_cons _ x x (Qle_refl x)). lia. }
        rewrite (Q.min_r rx R) by (exact (Qle_trans _ _ _ HR Hrx)).
        symmetry. now apply Q.min_r.
Qed.

End Core.


Lemma fold_min_perm (a b : list Q) :
  Permutation a b -> (fold_right Qmin 1 a == fold_right Qmin 1 b)%Q.
Proof.
  induction 1 as [|x a b _ IH|x y a|a b c _ IH1 _ IH2]; simpl.
  - reflexivity.
  - apply Q.min_compat; [reflexivity | exact IH].
  - rewrite !Q.min_assoc. apply Q.min_compat; [apply Q.min_comm | reflexivity].
  - now rewrite IH1.
Qed.

Lemma count_le_perm (l l' : list Q) (t : Q) :
  Permutation l l' -> count_le l t = count_le l' t.
Proof. intros H. unfold count_le. now apply filter_perm_length. Qed.

Lemma filter_perm {A : Type} (f : A -> bool) (l l' : list A) :
  Permutation l l' -> Permutation (filter f l) (filter f l').
Proof.
  induction 1; simpl.
  - apply perm_nil.
  - destruct (f x); [apply perm_skip|]; assumption.
  - destruct (f x), (f y); try apply Permutation_refl. apply perm_swap.
  - eapply perm_trans; eassumption.
Qed.

(** The adjustment of a value depends on the p-values as a multiset only. *)
Lemma bh_adjust_perm (l l' : list Q) (x : Q) :
  Permutation l l' -> (bh_adjust l x == bh_adjust l' x)%Q.
Proof.
  intros H. unfold bh_adjust.
  rewrite (Permutation_length H).
  rewrite (map_ext _ (fun t => (t / frac (count_le l' t) (length l'))%Q)).
  - apply fold_min_perm, Permutation_map, filter_perm, H.
  - intros t. now rewrite (count_le_perm l l' t H).
Qed.

Lemma combine_seq_In (p : list Q) (start : nat) (iv : nat * Q) :
  In iv (combine (seq start (length p)) p) ->
  nth (fst iv - start) p 0%Q = snd iv /\ start <= fst iv.
Proof.
  revert start. induction p as [|x p IH]; intros start; simpl; [tauto|].
  intros [<-|H].
  - simpl. rewrite Nat.sub_diag. split; [reflexivity | lia].
  - apply IH in H. destruct H as [H1 H2]. split; [|lia].
    replace (fst iv - start) with (S (fst iv - S start)) by lia. exact H1.
Qed.

Lemma take_sort_indexed (p : list Q) :
  take p (argsort p) = map snd (sort_indexed p).
Proof.
  unfold take, argsort. rewrite map_map. apply map_ext_in. intros iv Hin.
  apply (Permutation_in _ (Permutation_sym (sort_indexed_perm p))) in Hin.
  apply combine_seq_In in Hin. rewrite Nat.sub_0_r in Hin. apply Hin.
Qed.

Lemma map_fst_combine {A B : Type} (l : list A) (l' : list B) :
  length l = length l' -> map fst (combine l l') = l.
Proof.
  revert l'. induction l as [|x l IH]; intros [|y l'] H; simpl in *;
    try discriminate; [reflexivity|]. f_equal. apply IH. lia.
Qed.

Lemma map_snd_combine {A B : Type} (l : list A) (l' : list B) :
  length l = length l' -> map snd (combine l l') = l'.
Proof.
  revert l'. induction l as [|x l IH]; intros [|y l'] H; simpl in *;
    try discriminate; [reflexivity|]. f_equal. apply IH. lia.
Qed.

Lemma sorted_values_perm (p : list Q) :
  Permutation p (map snd (sort_indexed p)).
Proof.
  rewrite <- (map_snd_combine (seq 0 (length p)) p) at 1.
  - apply Permutation_map, sort_indexed_perm.
  - apply length_seq.
Qed.

Lemma argsort_perm (p : list Q) :
  Permutation (seq 0 (length p)) (argsort p).
Proof.
  rewrite <- (map_fst_combine (seq 0 (length p)) p) at 1.
  - apply Permutation_map, sort_indexed_perm.
  - apply length_seq.
Qed.

Lemma sorted_values_sorted (p : list Q) :
  StronglySorted Qle (map snd (sort_indexed p)).
Proof.
  induction (sort_indexed_sorted p) as [|x l _ IH Hall]; simpl; constructor.
  - exact IH.
  - rewrite Forall_map. exact Hall.
Qed.

Lemma set_nth_length {A : Type} (i : nat) (v : A) (l : list A) :
  length (set_nth i v l) = length l.
Proof.
  revert i. induction l as [|x l IH]; intros [|i]; simpl; auto.
Qed.

Lemma set_nth_same {A : Type} (i : nat) (v d : A) (l : list A) :
  i < length l -> nth i (set_nth i v l) d = v.
Proof.
  revert i. induction l as [|x l IH]; intros [|i] H; simpl in *; try lia.
  - reflexivity.
  - apply IH. lia.
Qed.

Lemma set_nth_other {A : Type} (i j : nat) (v d : A) (l : list A) :
  i <> j -> nth j (set_nth i v l) d = nth j l d.
Proof.
  revert i j. induction l as [|x l IH]; intros [|i] [|j] H; simpl; auto.
  lia.
Qed.

Definition put (out : list Q) (iv : nat * Q) : list Q :=
  set_nth (fst iv) (snd iv) out.

Lemma fold_put_length (ps : list (nat * Q)) (init : list Q) :
  length (fold_left put ps init) = length init.
Proof.
  revert init. induction ps as [|iv ps IH]; intros init; simpl; [reflexivity|].
  rewrite IH. apply set_nth_length.
Qed.

Lemma fold_put_other (ps : list (nat * Q)) (init : list Q) (j : nat) (d : Q) :
  ~ In j (map fst ps) -> nth j (fold_left put ps init) d = nth j init d.
Proof.
  revert init. induction ps as [|iv ps IH]; intros init H; simpl in *; [reflexivity|].
  rewrite IH by tauto. apply set_nth_other. tauto.
Qed.

Lemma fold_put_nth (ps : list (nat * Q)) (init : list Q) (j : nat) (v d : Q) :
  NoDup (map fst ps) -> In (j, v) ps -> j < length init ->
  nth j (fold_left put ps init) d = v.
Proof.
  revert init. induction ps as [|iv ps IH]; intros init Hnd Hin Hj; simpl in *; [tauto|].
  inversion Hnd as [|? ? Hn Hnd']; subst.
  destruct Hin as [->|Hin].
  - rewrite fold_put_other by exact Hn. now apply set_nth_same.
  - apply IH; [exact Hnd' | exact Hin | unfold put; now rewrite set_nth_length].
Qed.

(** Writing the value of every sorted p-value back at its position. *)
Lemma scatter_sorted (p : list Q) (G : Q -> Q) :
  scatter (argsort p) (map G (map snd (sort_indexed p))) = map G p.
Proof.
  unfold scatter, argsort.
  set (S := sort_indexed p).
  assert (HlenS : length S = length p).
  { unfold S. rewrite <- (Permutation_length (sort_indexed_perm p)).
    rewrite length_combine, length_seq. apply Nat.min_id. }
  replace (combine (map fst S) (map G (map snd S)))
    with (map (fun iv : nat * Q => (fst iv, G (snd iv))) S)
    by (clear; induction S as [|[i v] S IH]; simpl; [reflexivity | now rewrite IH]).
  change (fold_left (fun out iv => set_nth (fst iv) (snd iv) out))
    with (fold_left put).
  apply (nth_ext _ _ 0%Q (G 0%Q)).
  - rewrite fold_put_length, repeat_length, !length_map. exact HlenS.
  - intros j Hj.
    rewrite fold_put_length, repeat_length, !length_map, HlenS in Hj.
    rewrite map_nth. apply fold_put_nth.
    + rewrite map_map. simpl. fold (argsort p).
      eapply Permutation_NoDup; [apply argsort_perm | apply seq_NoDup].
    + apply in_map_iff. exists (j, nth j p 0%Q). split; [reflexivity|].
      eapply Permutation_in; [apply sort_indexed_perm|].
      replace (j, nth j p 0%Q)
        with (nth j (combine (seq 0 (length p)) p) (0, 0%Q)).
      * apply nth_In. rewrite length_combine, length_seq, Nat.min_id. exact Hj.
      * rewrite combine_nth by apply length_seq. now rewrite seq_nth.
    + rewrite repeat_length, !length_map, HlenS. exact Hj.
Qed.

Lemma Forall2_map_eq {A B C : Type} (f : A -> C) (g : B -> C) (l : list A) (l' : list B) :
  Forall2 (fun a b => f a = g b) l l' -> map f l = map g l'.
Proof. induction 1; simpl; congruence. Qed.

(** The adjusted p-values, value by value. *)
Lemma fdr_bh_pointwise (p : list Q) :
  p <> [] -> Forall (Qle 0) p ->
  fdr_bh p = Ok (map (fun x => Qred (bh_adjust p x)) p).
Proof.
  intros Hne Hpos. unfold fdr_bh.
  destruct (length p =? 0) eqn:E.
  { apply Nat.eqb_eq in E. destruct p; [congruence | discriminate]. }
  apply Nat.eqb_neq in E. f_equal.
  rewrite take_sort_indexed.
  set (s := map snd (sort_indexed p)).
  assert (Hperm : Permutation p s) by apply sorted_values_perm.
  assert (Hlen : length s = length p) by (symmetry; now apply Permutation_length).
  rewrite <- (scatter_sorted p (fun x => Qred (bh_adjust p x))). fold s. f_equal.
  rewrite map_map. apply Forall2_map_eq.
  assert (Hraw : map2 Qdiv s (ecdf (length p)) = raw_from (length p) 0 s).
  { unfold raw_from, ecdf. now rewrite Hlen. }
  rewrite Hraw.
  eapply Forall2_impl;
    [|apply (cummin_right_sorted (length p)); [lia | apply sorted_values_sorted |]].
  - intros cv x H. simpl in H. apply Qred_complete.
    transitivity (Qmin 1 cv).
    + destruct (Qle_bool cv 1) eqn:Ecv.
      * symmetry. apply Q.min_r. now apply Qle_bool_iff.
      * symmetry. apply Q.min_l.
        destruct (Qlt_le_dec 1 cv) as [Hlt|Hle]; [now apply Qlt_le_weak|].
        apply Qle_bool_iff in Hle. congruence.
    + rewrite H. transitivity (bh_adjust s x).
      * unfold least_from, bh_adjust, term. rewrite Hlen. reflexivity.
      * apply bh_adjust_perm. now apply Permutation_sym.
  - fold s. eapply Permutation_Forall; eassumption.
Qed.

End Adjustment.

(** ** The p-value of Fisher's test is not negative *)

Lemma binom_steps_nonneg (k : nat) (m i acc : Z) :
  (0 <= m)%Z -> (0 <= i)%Z -> (0 <= acc)%Z -> (0 <= Fisher.binom_steps k m i acc)%Z.
Proof.
  revert i acc. induction k as [|k IH]; intros i acc Hm Hi Ha; simpl; [exact Ha|].
  apply IH; [exact Hm | lia |].
  apply Z.div_pos; [|lia]. apply Z.mul_nonneg_nonneg; lia.
Qed.

Lemma binom_nonneg (n k : nat) : (0 <= Fisher.binom n k)%Z.
Proof.
  unfold Fisher.binom. destruct (n <? k); [lia|].
  apply binom_steps_nonneg; lia.
Qed.

Lemma hypergeom_pmf_nonneg (k M n N : nat) : (0 <= Fisher.hypergeom_pmf k M n N)%Q.
Proof.
  unfold Fisher.hypergeom_pmf. destruct (N <? k); [apply Qle_refl|].
  unfold Qdiv. apply Qmult_le_0_compat.
  - change 0%Q with (inject_Z 0). rewrite <- Zle_Qle.
    apply Z.mul_nonneg_nonneg; apply binom_nonneg.
  - apply Qinv_le_0_compat. change 0%Q with (inject_Z 0). rewrite <- Zle_Qle.
    apply binom_nonneg.
Qed.

Lemma fisher_exact_greater_nonneg (a b c d : nat) :
  (0 <= Fisher.fisher_exact_greater a b c d)%Q.
Proof.
  unfold Fisher.fisher_exact_greater.
  destruct ((a + b =? 0) || (c + d =? 0) || (a + c =? 0) || (b + d =? 0));
    [discriminate|].
  rewrite Qred_correct. unfold Fisher.hypergeom_cdf.
  induction (seq 0 (S b)) as [|i l IH]; simpl; [apply Qle_refl|].
  exact (Qplus_le_compat 0 _ 0 _ (hypergeom_pmf_nonneg _ _ _ _) IH).
Qed.

(** ** The loop over the pathways *)

Section Loop.

Import ORA Hits.

Variable set_order : list cell -> list cell.
Variables DA_list background_list : list string.
Variable K : Frame.

Let cols := columns K.
Let K' := drop_column "Pathway_name" K.
Let pathway_dict :=
  combine (map fst (rows K)) (map (fun r => name_of cols (snd r)) (rows K)).
Let body := loop_body set_order DA_list background_list K' pathway_dict.

Definition record_hit (st : acc) (h : hit) : acc :=
  {| pathway_count := pathway_count st + 1;
     pathway_ratio := pathway_ratio st ++ [hit_ratio h];
     pathway_coverage := pathway_coverage st ++ [hit_coverage h];
     pathways_with_compounds := pathways_with_compounds st ++ [hit_id h];
     pathway_names_with_compounds := pathway_names_with_compounds st ++ [hit_name h];
     pvalues := pvalues st ++ [hit_pvalue h] |}.

Definition record_opt (st : acc) (o : option hit) : acc :=
  match o with
  | Some h => record_hit st h
  | None => st
  end.

Lemma filter_map_list {A B : Type} (f : B -> bool) (g : A -> B) (l : list A) :
  filter f (map g l) = map g (filter (fun x => f (g x)) l).
Proof.
  induction l as [|x l IH]; simpl; [reflexivity|].
  destruct (f (g x)); simpl; now rewrite IH.
Qed.

Lemma loc_tolist_rows (r : string * list cell) :
  loc_tolist K' (fst r)
  = match filter (fun r' => String.eqb (fst r) (fst r')) (rows K) with
    | [] => Raise KeyError
    | [r0] => Ok (slots cols (snd r0))
    | _ => Raise AttributeError
    end.
Proof.
  unfold loc_tolist, K', drop_column. simpl rows.
  rewrite filter_map_list. simpl.
  destruct (filter _ (rows K)) as [|r0 [|r1 l]]; reflexivity.
Qed.

Lemma dict_get_unique (r : string * list cell) :
  In r (rows K) -> unique_label (rows K) r ->
  dict_get pathway_dict (fst r) = Ok (name_of cols (snd r)).
Proof.
  intros Hin Hu. unfold dict_get, pathway_dict.
  assert (Hd : combine (map fst (rows K)) (map (fun r => name_of cols (snd r)) (rows K))
               = map (fun r => (fst r, name_of cols (snd r))) (rows K)).
  { clear. induction (rows K) as [|x l IH]; simpl; [reflexivity | now rewrite IH]. }
  rewrite Hd.
  destruct (find _ _) as [kv|] eqn:Ef.
  - apply find_some in Ef. destruct Ef as [Hkv He].
    apply in_rev, in_map_iff in Hkv. destruct Hkv as [r0 [<- Hr0]]. simpl in *.
    assert (Hf : In r0 (filter (fun r' => String.eqb (fst r) (fst r')) (rows K)))
      by (apply filter_In; now split).
    rewrite Hu in Hf. destruct Hf as [<-|[]]. reflexivity.
  - assert (Hn := find_none _ _ Ef (fst r, name_of cols (snd r))).
    simpl in Hn. rewrite String.eqb_refl in Hn.
    assert (false = true); [|discriminate]. symmetry. apply Hn.
    apply -> in_rev. apply in_map_iff. now exists r.
Qed.

Lemma loop_body_unique (st : acc) (r : string * list cell) :
  In r (rows K) -> unique_label (rows K) r ->
  body st (fst r)
  = Ok (record_opt st (hit_of set_order DA_list background_list cols r)).
Proof.
  intros Hin Hu. unfold body, loop_body.
  rewrite loc_tolist_rows, Hu. cbn [bind].
  unfold hit_of, passes. cbv zeta.
  set (pc := compounds_of set_order (slots cols (snd r))).
  destruct ((length pc =? 0) || (length pc <? 2)); cbn [negb andb record_opt];
    [reflexivity|].
  set (t := contingency DA_list background_list pc).
  destruct ((DA_in_pathway t =? 0)
            || (compound_in_pathway_not_DA t + DA_in_pathway t <? 2));
    cbn [negb andb record_opt]; [reflexivity|].
  rewrite (dict_get_unique r Hin Hu). reflexivity.
Qed.

Lemma loop_body_ok (st st' : acc) (r : string * list cell) :
  In r (rows K) -> body st (fst r) = Ok st' -> unique_label (rows K) r.
Proof.
  intros Hin H. unfold body, loop_body in H. rewrite loc_tolist_rows in H.
  unfold unique_label.
  assert (Hf : In r (filter (fun r' => String.eqb (fst r) (fst r')) (rows K)))
    by (apply filter_In; split; [exact Hin | apply String.eqb_refl]).
  destruct (filter _ (rows K)) as [|r0 [|r1 l]]; simpl in H; try discriminate.
  destruct Hf as [->|[]]. reflexivity.
Qed.

Lemma for_each_unique (rs : list (string * list cell)) (st : acc) :
  (forall r, In r rs -> In r (rows K) /\ unique_label (rows K) r) ->
  for_each (map fst rs) body st
  = Ok (fold_left record_hit
          (filter_map (hit_of set_order DA_list background_list cols) rs) st).
Proof.
  revert st. induction rs as [|r rs IH]; intros st H; simpl; [reflexivity|].
  destruct (H r (or_introl eq_refl)) as [Hin Hu].
  rewrite (loop_body_unique st r Hin Hu). simpl bind.
  rewrite IH by (intros r' Hr'; apply H; now right).
  destruct (hit_of _ _ _ _ r); reflexivity.
Qed.

Lemma for_each_ok (rs : list (string * list cell)) (st st' : acc) :
  incl rs (rows K) -> for_each (map fst rs) body st = Ok st' ->
  forall r, In r rs -> unique_label (rows K) r.
Proof.
  revert st. induction rs as [|r rs IH]; intros st Hincl H r' Hr'; [destruct Hr'|].
  simpl in H. destruct (body st (fst r)) as [st1|e] eqn:Eb; [|discriminate].
  simpl in H. destruct Hr' as [<-|Hr'].
  - eapply loop_body_ok; [|exact Eb]. apply Hincl. now left.
  - eapply IH; [|exact H|exact Hr']. intros x Hx. apply Hincl. now right.
Qed.

End Loop.

Section AnalysisFacts.

Import ORA Hits.

Variable set_order : list cell -> list cell.
Variables DA_list background_list : list string.

Lemma fold_record_hit (hs : list hit) (st : acc) :
  let st' := fold_left record_hit hs st in
  pathways_with_compounds st' = pathways_with_compounds st ++ map hit_id hs
  /\ pathway_names_with_compounds st'
     = pathway_names_with_compounds st ++ map hit_name hs
  /\ pathway_ratio st' = pathway_ratio st ++ map hit_ratio hs
  /\ pathway_coverage st' = pathway_coverage st ++ map hit_coverage hs
  /\ pvalues st' = pvalues st ++ map hit_pvalue hs.
Proof.
  revert st. induction hs as [|h hs IH]; intros st; simpl.
  - now rewrite !app_nil_r.
  - destruct (IH (record_hit st h)) as (H1 & H2 & H3 & H4 & H5).
    rewrite H1, H2, H3, H4, H5. simpl. now rewrite <- !app_assoc.
Qed.

Lemma zip_cons_map {A V : Type} (f : A -> V) (g : A -> list V) (l : list A) :
  zip_cons (map f l) (map g l) = map (fun x => f x :: g x) l.
Proof. induction l as [|x l IH]; simpl; [reflexivity | now rewrite IH]. Qed.

Lemma hits_pvalues_nonneg (df : Frame) :
  Forall (Qle 0) (map hit_pvalue (hits set_order DA_list background_list df)).
Proof.
  unfold hits. induction (present df) as [|r l IH]; simpl; [constructor|].
  destruct (hit_of _ _ _ _ r) as [h|] eqn:E; [|exact IH].
  simpl. constructor; [|exact IH].
  unfold hit_of in E. destruct (passes _ _ _); [|discriminate].
  injection E as <-. simpl. apply fisher_exact_greater_nonneg.
Qed.

(** On a well-formed frame the analysis returns the rows of the hits, in
    their order. *)
Lemma analysis_well_formed (df : Frame) :
  well_formed df ->
  over_representation_analysis set_order DA_list background_list df
  = let hs := hits set_order DA_list background_list df in
    Ok (mkTable result_columns (map (row_of (map hit_pvalue hs)) hs)).
Proof.
  intros [Hname Huniq]. unfold over_representation_analysis. cbv zeta.
  unfold getitem_tolist. simpl columns. rewrite Hname. cbn [bind].
  match goal with
  | |- context [for_each ?l ?b ?s] =>
      replace (for_each l b s)
        with (Ok (A := acc)
                (fold_left record_hit (hits set_order DA_list background_list df) s))
  end.
  2:{ symmetry.
      apply (for_each_unique set_order DA_list background_list
               (dropna_all (tl (columns df)) df) (present df) acc_init).
      intros r Hr. split; [exact Hr | now apply Huniq]. }
  cbn [bind]. unfold tabulate.
  set (hs := hits set_order DA_list background_list df).
  destruct (fold_record_hit hs acc_init) as (H1 & H2 & H3 & H4 & H5).
  simpl in H1, H2, H3, H4, H5. rewrite H1, H2, H3, H4, H5.
  destruct hs as [|h hs'] eqn:Ehs; [reflexivity|].
  rewrite <- Ehs.
  rewrite fdr_bh_pointwise.
  - rewrite !map_map. unfold zip_last. rewrite map_map, !zip_cons_map.
    unfold pd_DataFrame.
    replace (forallb _ _) with true; [reflexivity|].
    symmetry. apply forallb_forall. intros x Hx.
    apply in_map_iff in Hx. destruct Hx as [h0 [<- _]]. reflexivity.
  - rewrite Ehs. discriminate.
  - apply hits_pvalues_nonneg.
Qed.

(** The analysis returns on well-formed frames only. *)
Lemma analysis_ok_well_formed (df : Frame) (out : Table value) :
  over_representation_analysis set_order DA_list background_list df = Ok out ->
  well_formed df.
Proof.
  unfold over_representation_analysis. cbv zeta. intros H.
  unfold getitem_tolist in H. simpl columns in H.
  destruct (count_occ string_dec (columns df) "Pathway_name") as [|[|n]] eqn:Ec;
    try discriminate.
  split; [exact Ec|]. cbn [bind] in H.
  destruct (for_each _ _ acc_init) as [st|e] eqn:Ef; [|discriminate].
  eapply (for_each_ok set_order DA_list background_list
            (dropna_all (tl (columns df)) df) (present df)).
  - apply incl_refl.
  - exact Ef.
Qed.

End AnalysisFacts.

(** ** Independence of the listing order *)

Section Listings.

Import ORA PySet Hits SetOrder.

Lemma listing_lists_sets : lists_sets listing.
Proof.
  intros l. split.
  - intros x. apply nodup_In.
  - apply NoDup_filter, NoDup_nodup.
Qed.

Lemma rev_listing_lists_sets : lists_sets (fun l => rev (listing l)).
Proof.
  intros l. split.
  - intros x. rewrite <- in_rev. apply nodup_In.
  - apply NoDup_filter, NoDup_rev, NoDup_nodup.
Qed.

Lemma compounds_of_perm (set_order : list cell -> list cell) (cells : list cell) :
  lists_sets set_order ->
  Permutation (compounds_of set_order cells) (distinct_compounds cells).
Proof.
  intros H. destruct (H cells) as [Hin Hnd].
  unfold compounds_of, distinct_compounds. cbv zeta.
  set (keep := fun i : cell => negb (String.eqb (str i) "nan")).
  apply NoDup_Permutation.
  - apply NoDup_map_NoDup_ForallPairs.
    + intros x y Hx Hy E. apply filter_In in Hx, Hy.
      destruct Hx as [_ Hx], Hy as [_ Hy]. unfold keep in Hx, Hy.
      destruct x, y; simpl in *; try discriminate; congruence.
    + rewrite (filter_ext_in keep (fun c => keep c && negb (isna c))).
      * clear -Hnd. induction (set_order cells) as [|c l IH]; simpl; [constructor|].
        simpl in Hnd. destruct c; simpl in *; [apply IH, Hnd|].
        inversion Hnd as [|? ? Hn Hnd']; subst.
        rewrite andb_true_r. destruct (keep (Str s)); [|apply IH, Hnd'].
        constructor; [|apply IH, Hnd'].
        intros Hc. apply Hn. apply filter_In in Hc. apply filter_In.
        split; [tauto|]. destruct Hc as [_ Hc]. apply andb_true_iff in Hc. tauto.
      * intros c _. destruct c; [reflexivity|]. cbn [isna negb]. now rewrite andb_true_r.
  - apply NoDup_nodup.
  - intros s. rewrite nodup_In, !in_map_iff. split; intros [c [E Hc]]; exists c;
      (split; [exact E|]); apply filter_In in Hc; apply filter_In;
      (split; [apply Hin|]; tauto).
Qed.

Lemma contingency_perm (DA_list background_list pc pc' : list string) :
  Permutation pc pc' ->
  contingency DA_list background_list pc = contingency DA_list background_list pc'.
Proof.
  intros H.
  assert (Hin : forall x, In x pc <-> In x pc')
    by (intros x; split; apply Permutation_in; [|apply Permutation_sym]; exact H).
  unfold contingency. f_equal.
  - unfold inter, set_. f_equal. apply filter_ext. intros x. apply mem_ext.
    intros y. rewrite !nodup_In. apply Hin.
  - unfold inter, set_. apply filter_perm_length.
    apply NoDup_Permutation; try apply NoDup_nodup.
    intros x. rewrite !nodup_In. apply Hin.
  - f_equal. now apply setdiff1d_ext.
  - f_equal. now apply setdiff1d_ext.
Qed.

Lemma passes_perm (DA_list background_list pc pc' : list string) :
  Permutation pc pc' ->
  passes DA_list background_list pc = passes DA_list background_list pc'.
Proof.
  intros H. unfold passes.
  now rewrite (contingency_perm _ _ pc pc' H), (Permutation_length H).
Qed.

Lemma loop_body_perm (so so' : list cell -> list cell)
    (DA_list background_list : list string) (K : Frame)
    (d : list (string * cell)) (st : acc) (p : string) :
  (forall cells, Permutation (compounds_of so cells) (compounds_of so' cells)) ->
  loop_body so DA_list background_list K d st p
  = loop_body so' DA_list background_list K d st p.
Proof.
  intros H. unfold loop_body.
  destruct (loc_tolist K p) as [cells|e]; [|reflexivity]. cbn [bind].
  rewrite (contingency_perm _ _ _ _ (H cells)), (Permutation_length (H cells)).
  reflexivity.
Qed.

Lemma for_each_ext {S A : Type} (f g : S -> A -> result S) (l : list A) (s : S) :
  (forall s x, f s x = g s x) -> for_each l f s = for_each l g s.
Proof.
  intros H. revert s. induction l as [|x l IH]; intros s; simpl; [reflexivity|].
  rewrite H. destruct (g s x); simpl; [apply IH | reflexivity].
Qed.

(** The analysis reads the compounds of a row as a set: two listings that
    agree up to order give the same frame, or the same exception. *)
Lemma analysis_perm
    (so so' : list cell -> list cell)
    (DA_list background_list : list string) (pathways_df : Frame) :
  (forall cells, Permutation (compounds_of so cells) (compounds_of so' cells)) ->
  over_representation_analysis so DA_list background_list pathways_df
  = over_representation_analysis so' DA_list background_list pathways_df.
Proof.
  intros H. unfold over_representation_analysis. cbv zeta.
  destruct (getitem_tolist _ _) as [names|e]; [|reflexivity]. cbn [bind].
  erewrite for_each_ext; [reflexivity|].
  intros s x. now apply loop_body_perm.
Qed.

(** C10: two runs on the same arguments give the same result, whatever the
    order in which the sets of either run list their elements. *)
Theorem analysis_independent_of_set_order
    (so so' : list cell -> list cell)
    (DA_list background_list : list string) (pathways_df : Frame) :
  lists_sets so -> lists_sets so' ->
  over_representation_analysis so DA_list background_list pathways_df
  = over_representation_analysis so' DA_list background_list pathways_df.
Proof.
  intros H H'. apply analysis_perm. intros cells.
  apply perm_trans with (distinct_compounds cells).
  - now apply compounds_of_perm.
  - apply Permutation_sym. now apply compounds_of_perm.
Qed.

End Listings.

(** ** The contingency table *)

Section Contingency.

Import ORA PySet.

Variables DA_list background_list : list string.

(** C1, as the code has it: [DA_not_in_pathway] counts every distinct
    identifier of [DA_list] that is not a compound of the pathway once,
    however often the identifier occurs in [DA_list]. *)
Theorem DA_not_in_pathway_counts_distinct (pathway_compounds : list string) :
  DA_not_in_pathway (contingency DA_list background_list pathway_compounds)
  = length (nodup string_dec
              (filter (fun x => negb (mem x pathway_compounds)) DA_list)).
Proof.
  simpl. rewrite setdiff1d_length. now rewrite nodup_filter.
Qed.

(** C9: whatever the background list, the hits and the misses of the
    table add up to the number of distinct identifiers of [DA_list]; an
    identifier of [DA_list] that is not in the background list is counted
    all the same. *)
Theorem DA_counts_partition_distinct_DA (pathway_compounds : list string) :
  let t := contingency DA_list background_list pathway_compounds in
  DA_in_pathway t + DA_not_in_pathway t = length (nodup string_dec DA_list)
  /\ (forall background_list',
        let t' := contingency DA_list background_list' pathway_compounds in
        DA_in_pathway t' = DA_in_pathway t
        /\ DA_not_in_pathway t' = DA_not_in_pathway t).
Proof.
  split; [|intros bg'; split; reflexivity].
  simpl. rewrite setdiff1d_length. unfold inter, set_.
  rewrite (filter_ext _ (fun x => mem x pathway_compounds)).
  - apply filter_length.
  - intros x. apply mem_ext. intros y. apply nodup_In.
Qed.

End Contingency.

(** C1, as the specification words it, fails: an identifier that occurs
    twice in [DA_list] is counted once.  The pathway of compounds C2 and C3
    is tested (it passes both filters, and the analysis has a row for it);
    C1 occurs twice in [DA_list] outside the pathway, and c is 1. *)
Lemma DA_not_in_pathway_ignores_repeats :
  Hits.passes ["C1"; "C1"; "C2"] ["C3"] ["C2"; "C3"] = true
  /\ (exists out,
        ORA.over_representation_analysis ORA.listing ["C1"; "C1"; "C2"] ["C3"]
          (ORA.mkFrame ["Pathway_name"; "c1"; "c2"]
             [("P1", [ORA.Str "Pathway one"; ORA.Str "C2"; ORA.Str "C3"])])
        = Ok out
        /\ column "Pathway_ID" out = [Some (ORA.VStr "P1")])
  /\ ORA.DA_not_in_pathway (ORA.contingency ["C1"; "C1"; "C2"] ["C3"] ["C2"; "C3"])
     = 1
  /\ ORA.DA_not_in_pathway (ORA.contingency ["C1"; "C1"; "C2"] ["C3"] ["C2"; "C3"])
     <> length (filter (fun x => negb (mem x ["C2"; "C3"])) ["C1"; "C1"; "C2"]).
Proof.
  split; [vm_compute; reflexivity|]. split.
  - eexists. split; vm_compute; reflexivity.
  - split; [vm_compute; reflexivity|]. vm_compute. discriminate.
Qed.

(** ** The result of the analysis *)

Section AnalysisClaims.

Import ORA PySet Hits SetOrder.

Lemma filter_map_In {A B : Type} (f : A -> option B) (l : list A) (y : B) :
  In y (filter_map f l) <-> exists x, In x l /\ f x = Some y.
Proof.
  induction l as [|x l IH]; simpl.
  - split; [tauto | intros [x [[] _]]].
  - destruct (f x) as [z|] eqn:E; simpl; rewrite IH; split.
    + intros [<-|[x' [H1 H2]]]; [exists x | exists x']; tauto.
    + intros [x' [[<-|H1] H2]]; [left; congruence | right; exists x'; tauto].
    + intros [x' [H1 H2]]. exists x'. tauto.
    + intros [x' [[<-|H1] H2]]; [congruence | exists x'; tauto].
Qed.

Lemma filter_map_perm {A B : Type} (f : A -> option B) (l l' : list A) :
  Permutation l l' -> Permutation (filter_map f l) (filter_map f l').
Proof.
  induction 1; simpl.
  - apply perm_nil.
  - destruct (f x); [apply perm_skip|]; assumption.
  - destruct (f x), (f y); try apply Permutation_refl. apply perm_swap.
  - eapply perm_trans; eassumption.
Qed.

Lemma zip_cons_nil {V : Type} (col : list V) : zip_cons col [] = [].
Proof. destruct col; reflexivity. Qed.

(** C4: with no p-value collected, the division by zero of the correction
    is caught and the frame of results is empty; so it is for a
    well-formed frame of pathways none of which passes the filters. *)
Theorem no_hit_gives_empty_frame :
  Multitest.fdr_bh [] = Raise ZeroDivisionError
  /\ (forall st, pvalues st = [] -> tabulate st = Ok (mkTable result_columns []))
  /\ (forall set_order DA_list background_list pathways_df,
        well_formed pathways_df ->
        hits set_order DA_list background_list pathways_df = [] ->
        over_representation_analysis set_order DA_list background_list pathways_df
        = Ok (mkTable result_columns [])).
Proof.
  split; [reflexivity|]. split.
  - intros st H. unfold tabulate. rewrite H. simpl.
    now rewrite !zip_cons_nil.
  - intros so DA bg df Hwf Hh.
    rewrite (analysis_well_formed so DA bg df Hwf). cbv zeta. now rewrite Hh.
Qed.


Lemma hit_of_Some (so : list cell -> list cell) (DA bg cols : list string)
    (r : string * list cell) (h : hit) :
  hit_of so DA bg cols r = Some h ->
  hit_id h = fst r
  /\ passes DA bg (compounds_of so (slots cols (snd r))) = true.
Proof.
  unfold hit_of. cbv zeta.
  destruct (passes DA bg _) eqn:E; [|discriminate].
  intros H. injection H as <-. split; reflexivity.
Qed.

Lemma passes_true (DA bg pc : list string) :
  passes DA bg pc = true ->
  let t := contingency DA bg pc in
  2 <= length pc /\ DA_in_pathway t <> 0
  /\ 2 <= DA_in_pathway t + compound_in_pathway_not_DA t.
Proof.
  unfold passes. cbv zeta. intros H.
  apply andb_true_iff in H. destruct H as [H1 H2].
  apply negb_true_iff, orb_false_iff in H1, H2.
  destruct H1 as [_ H1], H2 as [H2 H3].
  apply Nat.ltb_ge in H1, H3. apply Nat.eqb_neq in H2. lia.
Qed.

Lemma column_id_rows (P : list Q) (hs : list hit) :
  column "Pathway_ID" (mkTable result_columns (map (row_of P) hs))
  = map (fun h => Some (VStr (hit_id h))) hs.
Proof. unfold column. simpl. now rewrite map_map. Qed.

(** C5: a pathway is in the result only if it has at least two distinct
    compounds (missing values apart), at least one of them is in
    [DA_list], and at least two of them are in [DA_list] or in the rest of
    the background list. *)
Theorem hit_only_if_filters_pass
    (set_order : list cell -> list cell)
    (DA_list background_list : list string) (pathways_df : Frame)
    (out : Table value) (pathway : string) :
  lists_sets set_order ->
  over_representation_analysis set_order DA_list background_list pathways_df = Ok out ->
  In (Some (VStr pathway)) (column "Pathway_ID" out) ->
  exists cells,
    In (pathway, cells) (present pathways_df)
    /\ let pathway_compounds :=
         distinct_compounds (slots (columns pathways_df) cells) in
       let t := contingency DA_list background_list pathway_compounds in
       2 <= length pathway_compounds
       /\ DA_in_pathway t <> 0
       /\ 2 <= DA_in_pathway t + compound_in_pathway_not_DA t.
Proof.
  intros Hso Hok Hin.
  assert (Hwf := analysis_ok_well_formed _ _ _ _ _ Hok).
  rewrite (analysis_well_formed _ _ _ _ Hwf) in Hok. cbv zeta in Hok.
  injection Hok as <-. rewrite column_id_rows in Hin.
  apply in_map_iff in Hin. destruct Hin as [h [E Hh]]. injection E as E.
  apply filter_map_In in Hh. destruct Hh as [[id cells] [Hr Hhit]].
  apply hit_of_Some in Hhit. destruct Hhit as [Hid Hp]. simpl in Hid, Hp.
  exists cells. split; [congruence|].
  rewrite (passes_perm _ _ _ _ (compounds_of_perm set_order _ Hso)) in Hp.
  now apply passes_true.
Qed.

Lemma filter_map_hit_ids (so : list cell -> list cell) (DA bg cols : list string)
    (l : list (string * list cell)) :
  map hit_id (filter_map (hit_of so DA bg cols) l)
  = map fst (filter (fun r => passes DA bg (compounds_of so (slots cols (snd r)))) l).
Proof.
  induction l as [|r l IH]; simpl; [reflexivity|].
  unfold hit_of at 1. cbv zeta.
  destruct (passes DA bg _); simpl; now rewrite IH.
Qed.

Lemma unique_label_perm (l l' : list (string * list cell)) (r : string * list cell) :
  Permutation l l' -> unique_label l r -> unique_label l' r.
Proof.
  unfold unique_label. intros H E.
  apply (filter_perm (fun r' => String.eqb (fst r) (fst r'))) in H.
  rewrite E in H. now apply Permutation_length_1_inv in H.
Qed.

Lemma present_perm (df df' : Frame) :
  columns df' = columns df -> Permutation (rows df) (rows df') ->
  Permutation (present df) (present df').
Proof.
  intros Hc Hr. unfold present, dropna_all. simpl. rewrite Hc.
  now apply filter_perm.
Qed.

Lemma well_formed_perm (df df' : Frame) :
  columns df' = columns df -> Permutation (rows df) (rows df') ->
  well_formed df -> well_formed df'.
Proof.
  intros Hc Hr [H1 H2]. split; [now rewrite Hc|].
  assert (Hp := present_perm df df' Hc Hr).
  intros r Hin. apply (unique_label_perm _ _ _ Hp). apply H2.
  eapply Permutation_in; [apply Permutation_sym, Hp | exact Hin].
Qed.

Lemma row_of_perm (P P' : list Q) (h : hit) :
  Permutation P P' -> row_of P h = row_of P' h.
Proof.
  intros H. unfold row_of. do 7 f_equal.
  apply Qred_complete, bh_adjust_perm, H.
Qed.

(** The analysis of a frame and of the frame with its rows in another
    order: the same rows come out, each pathway in the place its row has
    in the input. *)
Lemma analysis_rows_permuted (so : list cell -> list cell) (DA bg : list string)
    (df df' : Frame) (out : Table value) :
  columns df' = columns df -> Permutation (rows df) (rows df') ->
  over_representation_analysis so DA bg df = Ok out ->
  exists out',
    over_representation_analysis so DA bg df' = Ok out'
    /\ header out' = header out
    /\ Permutation (body out) (body out').
Proof.
  intros Hc Hr Hok.
  assert (Hwf := analysis_ok_well_formed _ _ _ _ _ Hok).
  assert (Hwf' := well_formed_perm _ _ Hc Hr Hwf).
  rewrite (analysis_well_formed _ _ _ _ Hwf) in Hok. cbv zeta in Hok.
  injection Hok as <-.
  rewrite (analysis_well_formed _ _ _ _ Hwf'). cbv zeta.
  eexists. split; [reflexivity|]. split; [reflexivity|]. simpl.
  assert (Hh : Permutation (hits so DA bg df) (hits so DA bg df')).
  { unfold hits. rewrite Hc. apply filter_map_perm, present_perm; assumption. }
  rewrite (map_ext _ _ (fun h => row_of_perm _ _ h (Permutation_map hit_pvalue Hh))).
  now apply Permutation_map.
Qed.

End AnalysisClaims.

(** ** Frames built by [zip] *)

Lemma zip_cons_nth_error {V : Type} (col : list V) (rest : list (list V)) (k : nat) :
  nth_error (zip_cons col rest) k
  = match nth_error col k, nth_error rest k with
    | Some x, Some r => Some (x :: r)
    | _, _ => None
    end.
Proof.
  revert col rest. induction k as [|k IH]; intros [|x col] [|r rest]; simpl;
    try reflexivity.
  - now destruct (nth_error col k).
  - apply IH.
Qed.

Lemma zip_cons_length {V : Type} (col : list V) (rest : list (list V)) :
  length (zip_cons col rest) = Nat.min (length col) (length rest).
Proof.
  revert rest. induction col as [|x col IH]; intros [|r rest]; simpl; auto.
Qed.

Lemma zip_cons_width {V : Type} (col : list V) (rest : list (list V)) (w : nat) :
  Forall (fun r => length r = w) rest ->
  Forall (fun r => length r = S w) (zip_cons col rest).
Proof.
  intros H. revert col. induction H as [|r rest Hr _ IH]; intros [|x col]; simpl;
    constructor; [simpl; now rewrite Hr | apply IH].
Qed.

Lemma zip_last_width {V : Type} (col : list V) :
  Forall (fun r => length r = 1) (zip_last col).
Proof. unfold zip_last. rewrite Forall_map. now apply Forall_forall. Qed.

Lemma zip_cons_heads {V : Type} (col : list V) (rest : list (list V)) :
  length col = length rest ->
  map (fun r => nth_error r 0) (zip_cons col rest) = map Some col.
Proof.
  revert rest. induction col as [|x col IH]; intros [|r rest] H; simpl in *;
    try discriminate; [reflexivity|]. f_equal. apply IH. lia.
Qed.

Lemma pd_DataFrame_width {V : Type} (data : list (list V)) (columns : list string) :
  Forall (fun r => length r = length columns) data ->
  pd_DataFrame data columns = Ok (mkTable columns data).
Proof.
  intros H. unfold pd_DataFrame.
  replace (forallb _ data) with true; [reflexivity|].
  symmetry. apply forallb_forall. rewrite Forall_forall in H.
  intros r Hr. apply Nat.eqb_eq. now apply H.
Qed.

Lemma pd_DataFrame_ok {V : Type} (data : list (list V)) (columns : list string)
    (t : Table V) :
  pd_DataFrame data columns = Ok t -> t = mkTable columns data.
Proof.
  unfold pd_DataFrame. destruct (forallb _ data); congruence.
Qed.

Lemma map2_map {A B C D : Type} (f : B -> C -> D) (g : A -> B) (h : A -> C)
    (l : list A) :
  Multitest.map2 f (map g l) (map h l) = map (fun x => f (g x) (h x)) l.
Proof. induction l as [|x l IH]; simpl; [reflexivity | now rewrite IH]. Qed.

(** ** The matrix after [t_tests] *)

Section Matrix.

Import TTest.

Lemma not_In_mem (x : string) (l : list string) : ~ In x l -> mem x l = false.
Proof.
  intros H. destruct (mem x l) eqn:E; [|reflexivity].
  apply mem_In in E. contradiction.
Qed.

Lemma find_fresh (label : string) (v : coldata) (l : list (string * coldata)) :
  ~ In label (map fst l) ->
  find (fun c => String.eqb label (fst c)) (l ++ [(label, v)]) = Some (label, v).
Proof.
  induction l as [|c l IH]; simpl; intros H.
  - now rewrite String.eqb_refl.
  - destruct (String.eqb label (fst c)) eqn:E.
    + apply String.eqb_eq in E. exfalso. apply H. now left.
    + apply IH. tauto.
Qed.

Lemma filter_fresh (label : string) (v : coldata) (l : list (string * coldata)) :
  ~ In label (map fst l) ->
  filter (fun c => negb (String.eqb label (fst c))) (l ++ [(label, v)]) = l.
Proof.
  induction l as [|c l IH]; simpl; intros H.
  - now rewrite String.eqb_refl.
  - destruct (String.eqb label (fst c)) eqn:E; simpl.
    + apply String.eqb_eq in E. exfalso. apply H. now left.
    + f_equal. apply IH. tauto.
Qed.

Lemma factorize_length (classes : list string) :
  length (factorize classes) = length classes.
Proof. unfold factorize. apply length_map. Qed.

Lemma ensure_valid_index_aligned (m : Matrix) (values : list Z) :
  length values = nrows m -> ensure_valid_index m values = m.
Proof.
  intros H. unfold ensure_valid_index. rewrite H.
  destruct (nrows m =? 0); reflexivity.
Qed.

Lemma ensure_valid_index_rows (m : Matrix) (values : list Z) :
  0 < nrows m -> ensure_valid_index m values = m.
Proof.
  intros H. unfold ensure_valid_index.
  destruct (nrows m =? 0) eqn:E; [|reflexivity].
  apply Nat.eqb_eq in E. lia.
Qed.

Lemma ensure_valid_index_no_rows (m : Matrix) (values : list Z) :
  nrows m = 0 -> values <> [] ->
  ensure_valid_index m values = reindex m (length values).
Proof.
  intros H Hv. unfold ensure_valid_index. rewrite H.
  destruct values; [congruence | reflexivity].
Qed.

Lemma labels_reindex (m : Matrix) (n : nat) : labels (reindex m n) = labels m.
Proof. unfold labels, reindex. cbn [cols]. rewrite map_map. reflexivity. Qed.

Variable np_mean np_var : list fnum -> fnum.
Variable stdtr : fnum -> fnum -> fnum.
Variable multipletests : list fnum -> string -> result (list fnum).

Definition tests_of (matrix : Matrix) (classes : list string) : list (fnum * fnum) :=
  map (fun c => ttest_ind_col np_mean np_var stdtr
                  (disease_of classes c) (ctrl_of classes c))
      (cols matrix).

Definition frame_of (metabolites : list string) (tt : list (fnum * fnum))
    (padj : list fnum) (return_stat : bool) : result (Table tvalue) :=
  if return_stat then
    pd_DataFrame
      (zip_cons (map TStr metabolites)
         (zip_cons (map TNum (map snd tt))
            (zip_cons (map TNum padj) (zip_last (map TNum (map fst tt))))))
      ["Metabolite"; "P-value"; "P-adjust"; "t-statistic"]
  else
    pd_DataFrame
      (zip_cons (map TStr metabolites)
         (zip_cons (map TNum (map snd tt)) (zip_last (map TNum padj))))
      ["Metabolite"; "P-value"; "P-adjust"].

(** On a matrix that has no column ["Target"] yet. *)
Lemma t_tests_fresh (matrix : Matrix) (classes : list string) (method : string)
    (return_stat : bool) :
  ~ In "Target" (labels matrix) -> length classes = nrows matrix ->
  t_tests np_mean np_var stdtr multipletests matrix classes method return_stat
  = (mkMatrix (nrows matrix) (cols matrix ++ [("Target", Codes (factorize classes))]),
     padj <- multipletests (map snd (tests_of matrix classes)) method ;;
     frame_of (labels matrix) (tests_of matrix classes) padj return_stat).
Proof.
  intros Hfresh Hlen. unfold t_tests, setitem. cbv zeta.
  rewrite ensure_valid_index_aligned by now rewrite factorize_length.
  rewrite factorize_length, Hlen, Nat.eqb_refl, (not_In_mem _ _ Hfresh).
  f_equal. unfold eq_zero. simpl cols.
  rewrite (find_fresh _ _ _ Hfresh). cbn [bind].
  unfold rows_without. simpl cols. rewrite (filter_fresh _ _ _ Hfresh).
  unfold ttest_ind. rewrite map2_map. reflexivity.
Qed.

(** A matrix that has rows, and not one for every class. *)
Lemma t_tests_mismatch (matrix : Matrix) (classes : list string) (method : string)
    (return_stat : bool) :
  0 < nrows matrix -> length classes <> nrows matrix ->
  t_tests np_mean np_var stdtr multipletests matrix classes method return_stat
  = (matrix, Raise ValueError).
Proof.
  intros Hrows H. unfold t_tests, setitem. cbv zeta.
  rewrite (ensure_valid_index_rows _ _ Hrows), factorize_length.
  apply Nat.eqb_neq in H. now rewrite H.
Qed.

(** A matrix that has no rows takes one for every class. *)
Lemma t_tests_no_rows (matrix : Matrix) (classes : list string) (method : string)
    (return_stat : bool) :
  nrows matrix = 0 -> classes <> [] ->
  t_tests np_mean np_var stdtr multipletests matrix classes method return_stat
  = t_tests np_mean np_var stdtr multipletests
      (reindex matrix (length classes)) classes method return_stat.
Proof.
  intros Hrows Hc.
  assert (Hv : factorize classes <> [])
    by (intros E; apply (f_equal (@length Z)) in E;
        rewrite factorize_length in E; destruct classes; [congruence | discriminate]).
  unfold t_tests, setitem. cbv zeta.
  rewrite (ensure_valid_index_no_rows _ _ Hrows Hv), factorize_length.
  rewrite (ensure_valid_index_aligned (reindex matrix (length classes)))
    by now rewrite factorize_length.
  rewrite labels_reindex. cbn [nrows reindex]. rewrite Nat.eqb_refl.
  destruct (mem "Target" (labels matrix)); reflexivity.
Qed.

End Matrix.

(** ** The two-sample test *)

Section TwoSample.

Import TTest.

(** *** Binary64 arithmetic *)
















(** *** The test of one column *)

Variable np_mean np_var : list fnum -> fnum.
Variable stdtr : fnum -> fnum -> fnum.




End TwoSample.

(** ** The result of the tests *)

Section Frames.

Import TTest.

Lemma nth_error_same_length {A B : Type} (l : list A) (l' : list B) (k : nat) (x : A) :
  length l = length l' -> nth_error l k = Some x -> exists y, nth_error l' k = Some y.
Proof.
  intros Hl H. destruct (nth_error l' k) as [y|] eqn:E; [now exists y|].
  apply nth_error_None in E. assert (k < length l) by (apply nth_error_Some; congruence).
  lia.
Qed.

(** The frame of results, when there is an adjusted p-value for every
    tested column. *)
Lemma frame_of_columns (metabolites : list string) (tt : list (fnum * fnum))
    (padj : list fnum) (return_stat : bool) :
  length metabolites = length tt -> length padj = length tt ->
  exists out,
    frame_of metabolites tt padj return_stat = Ok out
    /\ column "Metabolite" out = map (fun l => Some (TStr l)) metabolites
    /\ length (body out) = length tt
    /\ (forall k t, nth_error tt k = Some t ->
          nth_error (column "P-value" out) k = Some (Some (TNum (snd t)))
          /\ (return_stat = true ->
              nth_error (column "t-statistic" out) k = Some (Some (TNum (fst t))))).
Proof.
  intros Hm Hp. unfold frame_of.
  destruct return_stat;
    (rewrite pd_DataFrame_width
       by (repeat apply zip_cons_width; apply zip_last_width));
    eexists; (split; [reflexivity|]); unfold column; simpl index_of; simpl body;
    (split; [|split]).
  - rewrite zip_cons_heads, map_map; [reflexivity|].
    rewrite !zip_cons_length. unfold zip_last. rewrite !length_map. lia.
  - rewrite !zip_cons_length. unfold zip_last. rewrite !length_map. lia.
  - intros k t Ht.
    destruct (nth_error_same_length tt metabolites k t (eq_sym Hm) Ht) as [l Hl].
    destruct (nth_error_same_length tt padj k t (eq_sym Hp) Ht) as [q Hq].
    rewrite !nth_error_map, !zip_cons_nth_error. unfold zip_last.
    rewrite !nth_error_map, Hl, Hq, Ht. simpl. split; reflexivity.
  - rewrite zip_cons_heads, map_map; [reflexivity|].
    rewrite !zip_cons_length. unfold zip_last. rewrite !length_map. lia.
  - rewrite !zip_cons_length. unfold zip_last. rewrite !length_map. lia.
  - intros k t Ht.
    destruct (nth_error_same_length tt metabolites k t (eq_sym Hm) Ht) as [l Hl].
    destruct (nth_error_same_length tt padj k t (eq_sym Hp) Ht) as [q Hq].
    rewrite !nth_error_map, !zip_cons_nth_error. unfold zip_last.
    rewrite !nth_error_map, Hl, Hq, Ht. simpl. split; [reflexivity | discriminate].
Qed.

Lemma bonferroni_total (pvals : list fnum) (method : string) :
  pvals <> [] ->
  exists padj, bonferroni pvals method = Ok padj /\ length padj = length pvals.
Proof.
  intros H. unfold bonferroni. destruct pvals as [|p pvals]; [congruence|].
  simpl Nat.eqb. cbv iota. eexists. split; [reflexivity|]. apply length_map.
Qed.

Lemma bonferroni_length (pvals padj : list fnum) (method : string) :
  bonferroni pvals method = Ok padj -> length padj = length pvals.
Proof.
  unfold bonferroni. destruct (length pvals =? 0); [discriminate|].
  intros H. injection H as <-. apply length_map.
Qed.

End Frames.

Section TestClaims.

Import TTest.

Variable np_mean np_var : list fnum -> fnum.
Variable stdtr : fnum -> fnum -> fnum.
Variable multipletests : list fnum -> string -> result (list fnum).

(** C3, as the code has it: [t_tests] changes the caller's matrix in one
    way, by storing the codes of the classes under ["Target"] (the last
    column if there was none); every other column keeps its place and its
    values.  When the matrix has rows, and not as many as there are
    classes, the assignment raises [ValueError] and the matrix is as it
    was. *)
Theorem t_tests_stores_target
    (matrix : Matrix) (classes : list string) (method : string) (return_stat : bool) :
  let matrix' := fst (t_tests np_mean np_var stdtr multipletests
        matrix classes method return_stat) in
  (0 < nrows matrix -> length classes <> nrows matrix ->
   matrix' = matrix
   /\ snd (t_tests np_mean np_var stdtr multipletests matrix classes method
             return_stat) = Raise ValueError)
  /\ (length classes = nrows matrix ->
      nrows matrix' = nrows matrix
      /\ labels matrix'
         = (if mem "Target" (labels matrix) then labels matrix
            else labels matrix ++ ["Target"])
      /\ (forall c, In c (cols matrix') -> fst c = "Target" ->
            snd c = Codes (factorize classes))
      /\ (forall k c, fst c <> "Target" -> nth_error (cols matrix) k = Some c ->
            nth_error (cols matrix') k = Some c)).
Proof.
  cbv zeta. split.
  - intros Hrows H.
    rewrite (t_tests_mismatch np_mean np_var stdtr multipletests _ _ _ _ Hrows H).
    split; reflexivity.
  - intros H. unfold t_tests, setitem. cbv zeta.
    rewrite ensure_valid_index_aligned by now rewrite factorize_length.
    rewrite factorize_length, H, Nat.eqb_refl.
    destruct (mem "Target" (labels matrix)) eqn:E; cbn [fst nrows cols].
    + split; [reflexivity|]. split; [|split].
      * unfold labels. cbn [cols]. rewrite map_map. apply map_ext.
        intros c. now destruct (String.eqb "Target" (fst c)).
      * intros c Hc Hl. apply in_map_iff in Hc. destruct Hc as [c0 [<- _]].
        destruct (String.eqb "Target" (fst c0)) eqn:E0; [reflexivity|].
        apply String.eqb_neq in E0. congruence.
      * intros k c Hl Hk. rewrite nth_error_map, Hk. cbn [option_map].
        destruct (String.eqb "Target" (fst c)) eqn:E0; [|reflexivity].
        apply String.eqb_eq in E0. congruence.
    + split; [reflexivity|]. split; [|split].
      * unfold labels. cbn [cols]. now rewrite map_app.
      * intros c Hc Hl. apply in_app_or in Hc. destruct Hc as [Hc|[<-|[]]];
          [|reflexivity].
        exfalso. assert (Hm : mem "Target" (labels matrix) = true);
          [|congruence].
        apply mem_In. rewrite <- Hl. now apply in_map.
      * intros k c _ Hk. rewrite nth_error_app1; [exact Hk|].
        apply nth_error_Some. congruence.
Qed.


(** The call returns when the classes are as many as the rows and the
    correction accepts the p-values; the frame then has a row for every
    column, in order, with the test of the column. *)
Lemma t_tests_returns
    (matrix : Matrix) (classes : list string) (method : string) (return_stat : bool) :
  (forall p, p <> [] ->
     exists q, multipletests p method = Ok q /\ length q = length p) ->
  ~ In "Target" (labels matrix) -> length classes = nrows matrix ->
  cols matrix <> [] ->
  exists out,
    snd (t_tests np_mean np_var stdtr multipletests
          matrix classes method return_stat) = Ok out
    /\ column "Metabolite" out = map (fun l => Some (TStr l)) (labels matrix)
    /\ length (body out) = length (cols matrix)
    /\ (forall k c, nth_error (cols matrix) k = Some c ->
          let t := ttest_ind_col np_mean np_var stdtr
                (disease_of classes c) (ctrl_of classes c) in
          nth_error (column "P-value" out) k = Some (Some (TNum (snd t)))
          /\ (return_stat = true ->
              nth_error (column "t-statistic" out) k = Some (Some (TNum (fst t))))).
Proof.
  intros Hmt Hfresh Hlen Hne.
  rewrite (t_tests_fresh np_mean np_var stdtr multipletests
        matrix classes method return_stat
             Hfresh Hlen). cbn [snd].
  destruct (Hmt (map snd (tests_of np_mean np_var stdtr
        matrix classes))) as [padj [Hq Hl]].
  { unfold tests_of. destruct (cols matrix); [congruence | discriminate]. }
  rewrite Hq. cbn [bind]. rewrite length_map in Hl.
  destruct (frame_of_columns (labels matrix) (tests_of np_mean np_var stdtr
        matrix classes) padj
              return_stat) as [out (H1 & H2 & H3 & H4)].
  { unfold labels, tests_of. now rewrite !length_map. }
  { exact Hl. }
  exists out. split; [exact H1|]. split; [exact H2|]. split.
  { rewrite H3. unfold tests_of. apply length_map. }
  intros k c Hk. cbv zeta. apply (H4 k).
  unfold tests_of. now rewrite nth_error_map, Hk.
Qed.

(** The rows of the result follow the columns of a matrix that has no
    column ["Target"]: first when there is a class for every row. *)
Lemma t_tests_rows_aligned
    (matrix : Matrix) (classes : list string) (method : string) (return_stat : bool)
    (out : Table tvalue) :
  ~ In "Target" (labels matrix) ->
  (forall p q, multipletests p method = Ok q -> length q = length p) ->
  length classes = nrows matrix ->
  snd (t_tests np_mean np_var stdtr multipletests matrix classes method return_stat)
  = Ok out ->
  column "Metabolite" out = map (fun l => Some (TStr l)) (labels matrix).
Proof.
  intros Hfresh Hmt Hlen Hok.
  rewrite (t_tests_fresh np_mean np_var stdtr multipletests matrix classes method
             return_stat Hfresh Hlen) in Hok. cbn [snd] in Hok.
  destruct (multipletests _ method) as [padj|e] eqn:Eq; [|discriminate].
  cbn [bind] in Hok. apply Hmt in Eq. rewrite length_map in Eq.
  destruct (frame_of_columns (labels matrix)
              (tests_of np_mean np_var stdtr matrix classes) padj
              return_stat) as [out' (H1 & H2 & _)].
  { unfold labels, tests_of. now rewrite !length_map. }
  { exact Eq. }
  congruence.
Qed.

(** Then in general: a matrix without rows takes the rows of the classes,
    and a matrix with rows that are not as many as the classes raises. *)
Lemma t_tests_rows_follow_columns
    (matrix : Matrix) (classes : list string) (method : string) (return_stat : bool)
    (out : Table tvalue) :
  ~ In "Target" (labels matrix) ->
  (forall p q, multipletests p method = Ok q -> length q = length p) ->
  snd (t_tests np_mean np_var stdtr multipletests matrix classes method return_stat)
  = Ok out ->
  column "Metabolite" out = map (fun l => Some (TStr l)) (labels matrix).
Proof.
  intros Hfresh Hmt Hok.
  destruct (Nat.eq_dec (length classes) (nrows matrix)) as [Hlen|Hlen].
  - now apply (t_tests_rows_aligned matrix classes method return_stat).
  - destruct (nrows matrix) as [|n] eqn:Hn.
    + assert (Hc : classes <> [])
        by (destruct classes; [simpl in Hlen; congruence | discriminate]).
      rewrite (t_tests_no_rows np_mean np_var stdtr multipletests matrix classes
                 method return_stat Hn Hc) in Hok.
      rewrite <- (labels_reindex matrix (length classes)).
      apply (t_tests_rows_aligned (reindex matrix (length classes)) classes method
               return_stat).
      * now rewrite labels_reindex.
      * exact Hmt.
      * reflexivity.
      * exact Hok.
    + rewrite (t_tests_mismatch np_mean np_var stdtr multipletests matrix classes
                 method return_stat) in Hok; [discriminate | lia | lia].
Qed.



End TestClaims.

(** ** The order of the rows *)

Section RowOrder.

Import ORA Hits.

(** The pathways of the result are those of the input that pass the
    filters, in the order of the input. *)
Lemma analysis_ids_follow_rows (so : list cell -> list cell) (DA bg : list string)
    (df : Frame) (out : Table value) :
  over_representation_analysis so DA bg df = Ok out ->
  column "Pathway_ID" out
  = map (fun r => Some (VStr (fst r)))
        (filter (fun r => passes DA bg (compounds_of so (slots (columns df) (snd r))))
                (present df)).
Proof.
  intros Hok.
  assert (Hwf := analysis_ok_well_formed _ _ _ _ _ Hok).
  rewrite (analysis_well_formed _ _ _ _ Hwf) in Hok. cbv zeta in Hok.
  injection Hok as <-. rewrite column_id_rows.
  rewrite <- (map_map hit_id (fun i => Some (VStr i))).
  unfold hits. rewrite filter_map_hit_ids. now rewrite map_map.
Qed.

End RowOrder.

(** C6, as the code has it: the rows of [t_tests] are the columns of the
    matrix in order, for a matrix that has no column ["Target"]; the rows
    of the analysis are the pathways that pass the filters, in the order
    of the frame after [dropna]; and the analysis of the frame with its
    rows in another order gives the same rows, in that order. *)
Theorem result_rows_follow_input :
  (forall np_mean np_var stdtr multipletests matrix classes method return_stat out,
      ~ In "Target" (TTest.labels matrix) ->
      (forall p q, multipletests p method = Ok q -> length q = length p) ->
      snd (TTest.t_tests np_mean np_var stdtr multipletests
            matrix classes method return_stat)
      = Ok out ->
      column "Metabolite" out
      = map (fun l => Some (TTest.TStr l)) (TTest.labels matrix))
  /\ (forall set_order DA_list background_list pathways_df out,
        ORA.over_representation_analysis set_order DA_list background_list
          pathways_df = Ok out ->
        column "Pathway_ID" out
        = map (fun r => Some (ORA.VStr (fst r)))
            (filter (fun r => Hits.passes DA_list background_list
                                (ORA.compounds_of set_order
                                   (Hits.slots (ORA.columns pathways_df) (snd r))))
                    (Hits.present pathways_df)))
  /\ (forall set_order DA_list background_list pathways_df pathways_df' out,
        ORA.columns pathways_df' = ORA.columns pathways_df ->
        Permutation (ORA.rows pathways_df) (ORA.rows pathways_df') ->
        ORA.over_representation_analysis set_order DA_list background_list
          pathways_df = Ok out ->
        exists out',
          ORA.over_representation_analysis set_order DA_list background_list
            pathways_df' = Ok out'
          /\ header out' = header out
          /\ Permutation (body out) (body out')).
Proof.
  split; [|split].
  - intros. eapply t_tests_rows_follow_columns; eassumption.
  - intros. now apply analysis_ids_follow_rows.
  - intros. eapply analysis_rows_permuted; eassumption.
Qed.

(** * Examples *)

Section ExampleFacts.

Import ORA Hits SetOrder TTest Examples.

Lemma filter_none {A : Type} (f : A -> bool) (l : list A) :
  (forall y, In y l -> f y = false) -> filter f l = [].
Proof.
  induction l as [|x l IH]; intros H; simpl; [reflexivity|].
  rewrite (H x (or_introl eq_refl)). apply IH. intros y Hy. apply H. now right.
Qed.

Lemma unique_label_NoDup (l : list (string * list cell)) (r : string * list cell) :
  NoDup (map fst l) -> In r l -> unique_label l r.
Proof.
  unfold unique_label. induction l as [|x l IH]; intros Hnd Hin; [destruct Hin|].
  simpl in Hnd. inversion Hnd as [|? ? Hx Hnd']; subst. simpl.
  destruct Hin as [->|Hin].
  - rewrite String.eqb_refl. f_equal.
    apply filter_none. intros y Hy. apply String.eqb_neq. intros E.
    apply Hx. rewrite E. now apply in_map.
  - destruct (String.eqb (fst r) (fst x)) eqn:E.
    + apply String.eqb_eq in E. exfalso. apply Hx. rewrite <- E. now apply in_map.
    + now apply IH.
Qed.

Lemma well_formed_NoDup (df : Frame) :
  count_occ string_dec (columns df) "Pathway_name" = 1 ->
  NoDup (map fst (present df)) -> well_formed df.
Proof.
  intros H1 H2. split; [exact H1|]. intros r. now apply unique_label_NoDup.
Qed.

Lemma pathways_example_well_formed : well_formed pathways_example.
Proof.
  apply well_formed_NoDup; [reflexivity|]. vm_compute.
  repeat constructor; simpl; intuition discriminate.
Qed.



Lemma abundances_fresh : ~ In "Target" (labels abundances).
Proof. simpl. intuition discriminate. Qed.


End ExampleFacts.

(** ** The balanced table *)

(** C2, with the p-value the test has: for the differentially abundant
    compounds C1 and C2, the background C1 to C4 and a pathway of the
    compounds C1 and C3, the table is [[1, 1], [1, 1]] and the p-value of
    the one-sided test is 5/6; the analysis of that pathway alone reports
    it. *)
Theorem balanced_table_p_value
    (set_order : list ORA.cell -> list ORA.cell) (pathway_compounds : list string) :
  SetOrder.lists_sets set_order ->
  Permutation ["C1"; "C3"] pathway_compounds ->
  ORA.contingency ["C1"; "C2"] ["C1"; "C2"; "C3"; "C4"] pathway_compounds
  = ORA.mkTable2 1 1 1 1
  /\ Fisher.fisher_exact_greater 1 1 1 1 = (5 # 6)%Q
  /\ ORA.over_representation_analysis set_order ["C1"; "C2"] ["C1"; "C2"; "C3"; "C4"]
       Examples.balanced_frame
     = Ok (mkTable ORA.result_columns
             [[ORA.VStr "P1"; ORA.VCell (ORA.Str "Pathway one"); ORA.VStr "1/2";
               ORA.VStr "2/2"; ORA.VNum (5 # 6); ORA.VNum (5 # 6)]]).
Proof.
  intros Hso Hp. split; [|split].
  - rewrite <- (contingency_perm _ _ _ _ Hp). reflexivity.
  - reflexivity.
  - rewrite (analysis_perm set_order ORA.listing).
    + vm_compute. reflexivity.
    + intros cells. apply perm_trans with (SetOrder.distinct_compounds cells).
      * now apply compounds_of_perm.
      * apply Permutation_sym, compounds_of_perm, listing_lists_sets.
Qed.

Lemma balanced_table_p_value_witness :
  ORA.contingency ["C1"; "C2"] ["C1"; "C2"; "C3"; "C4"] ["C3"; "C1"]
  = ORA.mkTable2 1 1 1 1
  /\ Fisher.fisher_exact_greater 1 1 1 1 = (5 # 6)%Q
  /\ ORA.over_representation_analysis ORA.listing ["C1"; "C2"]
       ["C1"; "C2"; "C3"; "C4"] Examples.balanced_frame
     = Ok (mkTable ORA.result_columns
             [[ORA.VStr "P1"; ORA.VCell (ORA.Str "Pathway one"); ORA.VStr "1/2";
               ORA.VStr "2/2"; ORA.VNum (5 # 6); ORA.VNum (5 # 6)]]).
Proof.
  apply (balanced_table_p_value ORA.listing ["C3"; "C1"]).
  - apply listing_lists_sets.
  - apply perm_swap.
Defined.

(** C2, as the specification words it, fails: the p-value of the balanced
    table is not 1. *)
Lemma balanced_table_p_value_not_one :
  let t := ORA.contingency ["C1"; "C2"] ["C1"; "C2"; "C3"; "C4"] ["C1"; "C3"] in
  t = ORA.mkTable2 1 1 1 1
  /\ ~ (Fisher.fisher_exact_greater (ORA.DA_in_pathway t)
          (ORA.compound_in_pathway_not_DA t) (ORA.DA_not_in_pathway t)
          (ORA.compound_not_in_pathway_not_DA t) == 1)%Q.
Proof. cbv zeta. split; [reflexivity|]. vm_compute. discriminate. Qed.

(** ** Runs of the analysis *)

Lemma no_hit_gives_empty_frame_witness :
  ORA.over_representation_analysis ORA.listing ["C9"] Examples.background_example
    Examples.pathways_example
  = Ok (mkTable ORA.result_columns []).
Proof.
  apply (proj2 (proj2 no_hit_gives_empty_frame)).
  - apply pathways_example_well_formed.
  - vm_compute. reflexivity.
Defined.

Lemma hit_only_if_filters_pass_witness :
  exists cells,
    In ("P3", cells) (Hits.present Examples.pathways_example)
    /\ let pathway_compounds :=
         SetOrder.distinct_compounds
           (Hits.slots (ORA.columns Examples.pathways_example) cells) in
       let t := ORA.contingency Examples.DA_example Examples.background_example
                  pathway_compounds in
       2 <= length pathway_compounds
       /\ ORA.DA_in_pathway t <> 0
       /\ 2 <= ORA.DA_in_pathway t + ORA.compound_in_pathway_not_DA t.
Proof.
  eapply (hit_only_if_filters_pass ORA.listing Examples.DA_example
            Examples.background_example Examples.pathways_example).
  - apply listing_lists_sets.
  - vm_compute. reflexivity.
  - vm_compute. right. left. reflexivity.
Defined.

Lemma analysis_independent_of_set_order_witness :
  ORA.over_representation_analysis ORA.listing Examples.DA_example
    Examples.background_example Examples.pathways_example
  = ORA.over_representation_analysis (fun l => rev (ORA.listing l))
      Examples.DA_example Examples.background_example Examples.pathways_example.
Proof.
  apply analysis_independent_of_set_order.
  - apply listing_lists_sets.
  - apply rev_listing_lists_sets.
Defined.

(** ** Runs of the tests *)

Lemma t_tests_stores_target_witness :
  let matrix' :=
    fst (TTest.t_tests TTest.mean_in_order TTest.var_in_order TTest.stdtr_2
          TTest.bonferroni Examples.abundances
           Examples.two_classes "bonferroni" false) in
  TTest.nrows matrix' = 4
  /\ TTest.labels matrix' = ["m1"; "m2"; "Target"]
  /\ (forall c, In c (TTest.cols matrix') -> fst c = "Target" ->
        snd c = TTest.Codes [0; 0; 1; 1]%Z)
  /\ (forall k c, fst c <> "Target" ->
        nth_error (TTest.cols Examples.abundances) k = Some c ->
        nth_error (TTest.cols matrix') k = Some c).
Proof.
  apply (proj2 (t_tests_stores_target TTest.mean_in_order TTest.var_in_order
        TTest.stdtr_2 TTest.bonferroni
                  Examples.abundances Examples.two_classes "bonferroni" false)).
  reflexivity.
Defined.

(** C3, as the specification words it, fails: after the call the matrix of
    the caller has a third column. *)
Lemma t_tests_changes_matrix :
  fst (TTest.t_tests TTest.mean_in_order TTest.var_in_order TTest.stdtr_2
        TTest.bonferroni Examples.abundances
         Examples.two_classes "bonferroni" false)
  <> Examples.abundances
  /\ TTest.labels
       (fst (TTest.t_tests TTest.mean_in_order TTest.var_in_order TTest.stdtr_2
             TTest.bonferroni Examples.abundances
               Examples.two_classes "bonferroni" false))
     = ["m1"; "m2"; "Target"].
Proof.
  split; [|reflexivity].
  intros H. apply (f_equal (fun m => length (TTest.cols m))) in H.
  vm_compute in H. discriminate.
Qed.

Lemma result_rows_follow_input_witness :
  (exists out,
      snd (TTest.t_tests TTest.mean_in_order TTest.var_in_order TTest.stdtr_2
            TTest.bonferroni Examples.abundances
             Examples.two_classes "bonferroni" false) = Ok out
      /\ column "Metabolite" out
         = [Some (TTest.TStr "m1"); Some (TTest.TStr "m2")])
  /\ (exists out,
        ORA.over_representation_analysis ORA.listing Examples.DA_example
          Examples.background_example Examples.pathways_example = Ok out
        /\ column "Pathway_ID" out = [Some (ORA.VStr "P1"); Some (ORA.VStr "P3")]
        /\ exists out',
             ORA.over_representation_analysis ORA.listing Examples.DA_example
               Examples.background_example Examples.pathways_reordered = Ok out'
             /\ header out' = header out
             /\ Permutation (body out) (body out')).
Proof.
  split.
  - destruct (t_tests_returns TTest.mean_in_order TTest.var_in_order TTest.stdtr_2
        TTest.bonferroni Examples.abundances
                Examples.two_classes "bonferroni" false)
      as [out [Hok _]].
    + intros p Hp. now apply bonferroni_total.
    + apply abundances_fresh.
    + reflexivity.
    + discriminate.
    + exists out. split; [exact Hok|].
      apply (proj1 result_rows_follow_input TTest.mean_in_order TTest.var_in_order
            TTest.stdtr_2 TTest.bonferroni
               Examples.abundances Examples.two_classes "bonferroni" false out).
      * apply abundances_fresh.
      * intros p q. apply bonferroni_length.
      * exact Hok.
  - eexists. split; [vm_compute; reflexivity|]. split.
    + apply (proj1 (proj2 result_rows_follow_input) ORA.listing Examples.DA_example
               Examples.background_example Examples.pathways_example).
      vm_compute. reflexivity.
    + apply (proj2 (proj2 result_rows_follow_input) ORA.listing Examples.DA_example
               Examples.background_example Examples.pathways_example
               Examples.pathways_reordered).
      * reflexivity.
      * cbn [ORA.rows Examples.pathways_example Examples.pathways_reordered].
        match goal with
        | |- Permutation [?a; ?b; ?c; ?d] _ =>
            apply (perm_trans (Permutation_cons_append [b; c; d] a));
            exact (Permutation_app_tail [a] (Permutation_cons_append [c; d] b))
        end.
      * vm_compute. reflexivity.
Defined.

(** C6, as the specification words it, fails for a matrix that has a
    column ["Target"]: the codes of the classes overwrite the column, it is
    not tested, and the one row of the result carries its label with the
    test of the other column. *)
Lemma t_tests_mislabels_after_target :
  exists out,
    snd (TTest.t_tests TTest.mean_in_order TTest.var_in_order TTest.stdtr_2
          TTest.bonferroni Examples.with_target
           Examples.two_classes "bonferroni" false) = Ok out
    /\ column "Metabolite" out = [Some (TTest.TStr "Target")]
    /\ column "Metabolite" out
       <> map (fun l => Some (TTest.TStr l)) (TTest.labels Examples.with_target).
Proof.
  eexists. split; [vm_compute; reflexivity|]. split; [vm_compute; reflexivity|].
  vm_compute. discriminate.
Qed.





(** It fails as well for a column that holds the value nearest to 0.1 in
    all of six samples, three of each class: the mean of three such values
    is not the value itself, so the variance that is computed is not zero,
    and the test gives the statistic 0 and the p-value 1. *)
Lemma constant_column_can_have_p_one :
  TTest.is_zero
    (TTest.var_in_order
       (TTest.disease_of MoreExamples.six_samples
          ("m1", TTest.Floats (repeat MoreExamples.tenth 6)))) = false
  /\ exists out,
       snd (TTest.t_tests TTest.mean_in_order TTest.var_in_order TTest.stdtr_2
              TTest.bonferroni MoreExamples.tenths MoreExamples.six_samples
              "bonferroni" true) = Ok out
       /\ nth_error (column "P-value" out) 0 = Some (Some (TTest.TNum TTest.fone))
       /\ nth_error (column "t-statistic" out) 0
          = Some (Some (TTest.TNum TTest.fzero)).
Proof.
  split; [vm_compute; reflexivity|].
  eexists. split; [vm_compute; reflexivity|]. split; vm_compute; reflexivity.
Qed.

(** * Further properties *)

(** ** When the analysis raises *)

Section Raising.

Import ORA Hits.

Variable set_order : list cell -> list cell.
Variables DA_list background_list : list string.

Lemma loop_body_raises (K : Frame) (st : acc)
    (r : string * list cell) (e : exn) :
  In r (rows K) ->
  loop_body set_order DA_list background_list (drop_column "Pathway_name" K)
    (combine (map fst (rows K)) (map (fun r => name_of (columns K) (snd r)) (rows K)))
    st (fst r) = Raise e ->
  e = AttributeError.
Proof.
  intros Hin H.
  assert (Hf : In r (filter (fun r' => String.eqb (fst r) (fst r')) (rows K)))
    by (apply filter_In; split; [exact Hin | apply String.eqb_refl]).
  destruct (filter (fun r' => String.eqb (fst r) (fst r')) (rows K))
    as [|r0 [|r1 l]] eqn:E.
  - destruct Hf.
  - destruct Hf as [->|[]].
    rewrite (loop_body_unique set_order DA_list background_list K st r Hin E) in H.
    discriminate.
  - unfold loop_body in H. rewrite loc_tolist_rows, E in H. cbn [bind] in H.
    congruence.
Qed.

Lemma for_each_raises (K : Frame) (rs : list (string * list cell)) (st : acc) (e : exn) :
  incl rs (rows K) ->
  for_each (map fst rs)
    (loop_body set_order DA_list background_list (drop_column "Pathway_name" K)
       (combine (map fst (rows K))
          (map (fun r => name_of (columns K) (snd r)) (rows K))))
    st = Raise e ->
  e = AttributeError.
Proof.
  revert st. induction rs as [|r rs IH]; intros st Hincl H; [discriminate|].
  simpl in H.
  destruct (loop_body _ _ _ _ _ st (fst r)) as [st1|e1] eqn:Eb.
  - cbn [bind] in H. eapply IH; [|exact H]. intros x Hx. apply Hincl. now right.
  - cbn [bind] in H. injection H as <-.
    apply (loop_body_raises K st r e1); [apply Hincl; now left | exact Eb].
Qed.

(** X1: the analysis returns a frame exactly when the frame of pathways
    has one column of names and no two of its rows (after [dropna]) carry
    the same pathway identifier. *)
Theorem analysis_returns_iff_well_formed (pathways_df : Frame) :
  well_formed pathways_df
  <-> exists out,
        over_representation_analysis set_order DA_list background_list pathways_df
        = Ok out.
Proof.
  split.
  - intros H. rewrite (analysis_well_formed _ _ _ _ H). cbv zeta. eexists. reflexivity.
  - intros [out H]. eapply analysis_ok_well_formed. exact H.
Qed.

(** X2: the analysis raises [KeyError] when no column is labelled
    ["Pathway_name"]; when there is one, it raises nothing but
    [AttributeError] (several name columns, or a pathway identifier on
    several rows): building the frame of results never fails. *)
Theorem analysis_exceptions (pathways_df : Frame) :
  (~ In "Pathway_name" (columns pathways_df) ->
   over_representation_analysis set_order DA_list background_list pathways_df
   = Raise KeyError)
  /\ (In "Pathway_name" (columns pathways_df) ->
      forall e,
        over_representation_analysis set_order DA_list background_list pathways_df
        = Raise e ->
        e = AttributeError).
Proof.
  split.
  - intros Hn. unfold over_representation_analysis. cbv zeta.
    unfold getitem_tolist. simpl columns.
    now rewrite (proj1 (count_occ_not_In string_dec _ _) Hn).
  - intros Hin e. unfold over_representation_analysis. cbv zeta. intros H.
    unfold getitem_tolist in H. simpl columns in H.
    apply (count_occ_In string_dec) in Hin.
    destruct (count_occ string_dec (columns pathways_df) "Pathway_name")
      as [|[|n]] eqn:Ec; cbn [bind] in H; try congruence; try lia.
    destruct (for_each _ _ acc_init) as [st|e1] eqn:Ef.
    + exfalso. cbn [bind] in H.
      assert (Hwf : well_formed pathways_df).
      { split; [exact Ec|].
        eapply (for_each_ok set_order DA_list background_list
                  (dropna_all (tl (columns pathways_df)) pathways_df)
                  (present pathways_df)); [apply incl_refl | exact Ef]. }
      assert (Hok := analysis_well_formed set_order DA_list background_list _ Hwf).
      unfold over_representation_analysis in Hok. cbv zeta in Hok.
      unfold getitem_tolist in Hok. simpl columns in Hok. rewrite Ec in Hok.
      cbn [bind] in Hok. rewrite Ef in Hok. cbn [bind] in Hok. congruence.
    + cbn [bind] in H. injection H as <-.
      eapply (for_each_raises (dropna_all (tl (columns pathways_df)) pathways_df)
                (present pathways_df)); [apply incl_refl | exact Ef].
Qed.

End Raising.

(** ** The lists of identifiers are read as sets *)

Section Identifiers.

Import ORA PySet Hits.

Lemma unique_NoDup (l : list string) : NoDup (Np.unique l).
Proof.
  unfold Np.unique. eapply Permutation_NoDup; [apply sort_perm | apply NoDup_nodup].
Qed.

Lemma setdiff1d_In (ar1 ar2 : list string) (x : string) :
  In x (Np.setdiff1d ar1 ar2) <-> In x ar1 /\ ~ In x ar2.
Proof.
  unfold Np.setdiff1d. rewrite filter_In, unique_In, negb_true_iff.
  split; intros [H1 H2]; (split; [exact H1|]).
  - intros Hin. apply unique_In, mem_In in Hin. congruence.
  - destruct (mem x (Np.unique ar2)) eqn:E; [|reflexivity].
    exfalso. apply H2. now apply unique_In, mem_In.
Qed.

Lemma setdiff1d_NoDup (ar1 ar2 : list string) : NoDup (Np.setdiff1d ar1 ar2).
Proof. unfold Np.setdiff1d. apply NoDup_filter, unique_NoDup. Qed.

Lemma nodup_perm_ext (l l' : list string) :
  (forall x, In x l <-> In x l') ->
  Permutation (nodup string_dec l) (nodup string_dec l').
Proof.
  intros H. apply NoDup_Permutation; try apply NoDup_nodup.
  intros x. rewrite !nodup_In. apply H.
Qed.

(** The size of an intersection does not depend on the side it is taken
    from. *)
Lemma inter_length_comm (s t : list string) :
  NoDup s -> NoDup t -> length (inter s t) = length (inter t s).
Proof.
  intros Hs Ht. apply Permutation_length. unfold inter.
  apply NoDup_Permutation; try (apply NoDup_filter; assumption).
  intros x. rewrite !filter_In, !mem_In. tauto.
Qed.

Lemma filter_disjoint_length {A : Type} (f g : A -> bool) (l : list A) :
  (forall x, f x = true -> g x = false) ->
  length (filter f l) + length (filter g l) <= length l.
Proof.
  intros H. induction l as [|x l IH]; simpl; [lia|].
  destruct (f x) eqn:Ef.
  - rewrite (H x Ef). simpl. lia.
  - destruct (g x); simpl; lia.
Qed.

Lemma contingency_sets (DA DA' bg bg' pc : list string) :
  (forall x, In x DA <-> In x DA') ->
  (forall x, ~ In x DA -> (In x bg <-> In x bg')) ->
  contingency DA bg pc = contingency DA' bg' pc.
Proof.
  intros HDA Hbg.
  assert (HS : forall x, In x (Np.setdiff1d bg DA) <-> In x (Np.setdiff1d bg' DA')).
  { intros x. rewrite !setdiff1d_In. rewrite <- HDA. split; intros [H1 H2];
      (split; [|exact H2]); now apply (Hbg x H2). }
  unfold contingency. f_equal.
  - unfold inter, set_. apply filter_perm_length, nodup_perm_ext, HDA.
  - unfold inter, set_. f_equal. apply filter_ext. intros x. apply mem_ext.
    intros y. rewrite !nodup_In. apply HS.
  - rewrite !setdiff1d_length. apply filter_perm_length, nodup_perm_ext, HDA.
  - rewrite !setdiff1d_length. apply filter_perm_length, nodup_perm_ext, HS.
Qed.

(** X3: the analysis reads [DA_list] and [background_list] as sets: lists
    with the same identifiers give the same result, whatever the order or
    the repeats, and so do background lists that differ only in identifiers
    of [DA_list]. *)
Theorem analysis_reads_lists_as_sets
    (set_order : list cell -> list cell)
    (DA_list DA_list' background_list background_list' : list string)
    (pathways_df : Frame) :
  (forall x, In x DA_list <-> In x DA_list') ->
  (forall x, ~ In x DA_list -> (In x background_list <-> In x background_list')) ->
  over_representation_analysis set_order DA_list background_list pathways_df
  = over_representation_analysis set_order DA_list' background_list' pathways_df.
Proof.
  intros HDA Hbg. unfold over_representation_analysis. cbv zeta.
  destruct (getitem_tolist _ _) as [names|e]; [|reflexivity]. cbn [bind].
  erewrite for_each_ext; [reflexivity|].
  intros st p. unfold loop_body.
  destruct (loc_tolist _ p) as [cells|e]; [|reflexivity]. cbn [bind].
  now rewrite (contingency_sets _ _ _ _ _ HDA Hbg).
Qed.

(** X4: in the table of a pathway, the compounds counted in the first row
    are compounds of the pathway, so [a + b] is at most the number of its
    distinct compounds (the coverage is at most one); and the second
    column counts every distinct identifier of the background list that is
    not in [DA_list], once: [b + d = len(np.setdiff1d(background_list,
    DA_list))]. *)
Theorem contingency_margins (DA_list background_list pathway_compounds : list string) :
  let t := contingency DA_list background_list pathway_compounds in
  DA_in_pathway t + compound_in_pathway_not_DA t
  <= length (nodup string_dec pathway_compounds)
  /\ compound_in_pathway_not_DA t + compound_not_in_pathway_not_DA t
     = length (Np.setdiff1d background_list DA_list).
Proof.
  cbv zeta. simpl. split.
  - rewrite (inter_length_comm (set_ DA_list) (set_ pathway_compounds))
      by apply NoDup_nodup.
    unfold inter, set_. apply filter_disjoint_length.
    intros x Hx. apply mem_In, nodup_In in Hx.
    destruct (mem x _) eqn:E; [|reflexivity].
    apply mem_In, nodup_In, setdiff1d_In in E. tauto.
  - rewrite (inter_length_comm (set_ pathway_compounds)
               (set_ (Np.setdiff1d background_list DA_list)))
      by apply NoDup_nodup.
    rewrite setdiff1d_length. unfold inter, set_.
    rewrite (filter_ext _ (fun x => mem x pathway_compounds))
      by (intros x; apply mem_ext; intros y; apply nodup_In).
    rewrite filter_length. f_equal. apply nodup_fixed_point, setdiff1d_NoDup.
Qed.

End Identifiers.

(** ** The rows of the result *)

Section ResultRows.

Import ORA Hits Multitest.

Lemma unique_labels_NoDup (l : list (string * list cell)) :
  (forall r, In r l -> unique_label l r) -> NoDup (map fst l).
Proof.
  induction l as [|x l IH]; intros H; simpl; [constructor|].
  assert (Hx := H x (or_introl eq_refl)). unfold unique_label in Hx.
  simpl in Hx. rewrite String.eqb_refl in Hx. injection Hx as Hx.
  constructor.
  - intros Hin. apply in_map_iff in Hin. destruct Hin as [y [E Hy]].
    assert (Hf : In y (filter (fun r' => String.eqb (fst x) (fst r')) l)).
    { apply filter_In. split; [exact Hy|]. rewrite E. apply String.eqb_refl. }
    rewrite Hx in Hf. destruct Hf.
  - apply IH. intros r Hr. assert (Hu := H r (or_intror Hr)).
    unfold unique_label in *. simpl in Hu.
    destruct (String.eqb (fst r) (fst x)); [|exact Hu].
    injection Hu as _ Hu.
    assert (Hf : In r (filter (fun r' => String.eqb (fst r) (fst r')) l)).
    { apply filter_In. split; [exact Hr | apply String.eqb_refl]. }
    rewrite Hu in Hf. destruct Hf.
Qed.

Lemma NoDup_map_filter {A B : Type} (g : A -> B) (f : A -> bool) (l : list A) :
  NoDup (map g l) -> NoDup (map g (filter f l)).
Proof.
  induction l as [|x l IH]; simpl; intros H; [constructor|].
  inversion H as [|? ? Hx Hl]; subst.
  destruct (f x); simpl; [|now apply IH].
  constructor; [|now apply IH].
  intros Hin. apply Hx. apply in_map_iff in Hin. destruct Hin as [y [E Hy]].
  apply in_map_iff. exists y. split; [exact E|]. apply filter_In in Hy. tauto.
Qed.

(** X5: no pathway is reported twice: the identifiers of the result are
    pairwise different. *)
Theorem analysis_ids_distinct (set_order : list cell -> list cell)
    (DA_list background_list : list string) (pathways_df : Frame)
    (out : Table value) :
  over_representation_analysis set_order DA_list background_list pathways_df = Ok out ->
  NoDup (column "Pathway_ID" out).
Proof.
  intros Hok.
  assert (Hwf := analysis_ok_well_formed _ _ _ _ _ Hok).
  rewrite (analysis_ids_follow_rows _ _ _ _ _ Hok).
  rewrite <- (map_map fst (fun i => Some (VStr i))).
  apply NoDup_map_NoDup_ForallPairs.
  - intros x y _ _ E. congruence.
  - apply NoDup_map_filter, unique_labels_NoDup, Hwf.
Qed.

Lemma frac_le_1 (c n : nat) : 0 < n -> c <= n -> (frac c n <= 1)%Q.
Proof.
  intros Hn Hc. unfold frac. apply Qle_shift_div_r.
  - change 0%Q with (inject_Z 0). rewrite <- Zlt_Qlt. lia.
  - rewrite Qmult_1_l. rewrite <- Zle_Qle. lia.
Qed.

Lemma fold_min_glb (m : Q) (vals : list Q) :
  (m <= 1)%Q -> (forall v, In v vals -> (m <= v)%Q) ->
  (m <= fold_right Qmin 1 vals)%Q.
Proof.
  intros H1 H. induction vals as [|v vals IH]; simpl; [exact H1|].
  apply Q.min_glb; [apply H; now left | apply IH; intros w Hw; apply H; now right].
Qed.

Lemma bh_adjust_le_1 (l : list Q) (x : Q) : (bh_adjust l x <= 1)%Q.
Proof. unfold bh_adjust. apply fold_min_le_init. Qed.

Lemma count_le_pos (l : list Q) (t : Q) : In t l -> 0 < count_le l t <= length l.
Proof.
  intros H. unfold count_le. split; [|apply filter_length_le].
  assert (Hf : In t (filter (fun y => Qle_bool y t) l))
    by (apply filter_In; split; [exact H | apply Qle_bool_iff, Qle_refl]).
  destruct (filter _ l); [destruct Hf | simpl; lia].
Qed.

Lemma bh_adjust_ge (l : list Q) (x : Q) :
  Forall (Qle 0) l -> (Qmin x 1 <= bh_adjust l x)%Q.
Proof.
  intros Hpos. unfold bh_adjust. apply fold_min_glb; [apply Q.le_min_r|].
  intros v Hv. apply in_map_iff in Hv. destruct Hv as [t [<- Ht]].
  apply filter_In in Ht. destruct Ht as [Ht Hxt]. apply Qle_bool_iff in Hxt.
  destruct (count_le_pos l t Ht) as [Hc1 Hc2].
  assert (Hn : 0 < length l) by lia.
  assert (H0 : (0 <= t)%Q) by (rewrite Forall_forall in Hpos; now apply Hpos).
  apply Qle_trans with x; [apply Q.le_min_l|].
  apply Qle_trans with t; [exact Hxt|].
  apply Qle_shift_div_l; [now apply frac_pos|].
  apply Qle_trans with (1 * t)%Q; [|rewrite Qmult_1_l; apply Qle_refl].
  rewrite (Qmult_comm t).
  apply Qmult_le_compat_r; [now apply frac_le_1 | exact H0].
Qed.

Lemma bh_adjust_mono (l : list Q) (x y : Q) :
  (x <= y)%Q -> (bh_adjust l x <= bh_adjust l y)%Q.
Proof.
  intros Hxy. unfold bh_adjust. apply fold_min_glb; [apply fold_min_le_init|].
  intros v Hv. apply in_map_iff in Hv. destruct Hv as [t [<- Ht]].
  apply filter_In in Ht. destruct Ht as [Ht Hyt]. apply Qle_bool_iff in Hyt.
  apply (fold_min_le_in (fun t => (t / frac (count_le l t) (length l))%Q)).
  apply filter_In. split; [exact Ht|].
  apply Qle_bool_iff. eapply Qle_trans; eassumption.
Qed.

(** X6: every row of the result has the six fields of the header, a
    p-value that is not negative, and an adjusted p-value between the
    p-value (or 1, if that is less) and 1; of two rows, the one with the
    smaller p-value has the adjusted p-value that is not the larger. *)
Theorem analysis_rows_shape_and_bounds (set_order : list cell -> list cell)
    (DA_list background_list : list string) (pathways_df : Frame)
    (out : Table value) :
  over_representation_analysis set_order DA_list background_list pathways_df = Ok out ->
  header out = result_columns
  /\ (forall row, In row (body out) ->
        exists id name hits coverage p q,
          row = [VStr id; VCell name; VStr hits; VStr coverage; VNum p; VNum q]
          /\ (0 <= p)%Q /\ (Qmin p 1 <= q)%Q /\ (q <= 1)%Q)
  /\ (forall row row' p q p' q',
        In row (body out) -> In row' (body out) ->
        nth_error row 4 = Some (VNum p) -> nth_error row 5 = Some (VNum q) ->
        nth_error row' 4 = Some (VNum p') -> nth_error row' 5 = Some (VNum q') ->
        (p <= p')%Q -> (q <= q')%Q).
Proof.
  intros Hok.
  assert (Hwf := analysis_ok_well_formed _ _ _ _ _ Hok).
  rewrite (analysis_well_formed _ _ _ _ Hwf) in Hok. cbv zeta in Hok.
  injection Hok as <-. simpl header. simpl body.
  set (hs := hits set_order DA_list background_list pathways_df).
  assert (Hpos := hits_pvalues_nonneg set_order DA_list background_list pathways_df).
  fold hs in Hpos.
  split; [reflexivity|]. split.
  - intros row Hrow. apply in_map_iff in Hrow. destruct Hrow as [h [<- Hh]].
    do 6 eexists. split; [reflexivity|].
    rewrite Qred_correct. split; [|split].
    + rewrite Forall_forall in Hpos. apply Hpos. now apply in_map.
    + now apply bh_adjust_ge.
    + apply bh_adjust_le_1.
  - intros row row' p q p' q' Hrow Hrow' Hp Hq Hp' Hq' Hle.
    apply in_map_iff in Hrow, Hrow'.
    destruct Hrow as [h [<- _]], Hrow' as [h' [<- _]].
    simpl in Hp, Hq, Hp', Hq'.
    injection Hp as <-. injection Hq as <-. injection Hp' as <-. injection Hq' as <-.
    rewrite !Qred_correct. now apply bh_adjust_mono.
Qed.

End ResultRows.

(** ** The classes of the samples *)

Section Samples.

Import TTest Classes.

Lemma first_seen_head (l : list string) (h : string) (acc : list string) :
  exists t,
    fold_left (fun seen c => if mem c seen then seen else seen ++ [c]) l (h :: acc)
    = h :: t.
Proof.
  revert acc. induction l as [|c l IH]; intros acc; cbn [fold_left].
  - now exists acc.
  - destruct (mem c (h :: acc)); [apply IH|].
    change ((h :: acc) ++ [c]) with (h :: (acc ++ [c])). apply IH.
Qed.

(** The samples of code 0 are the samples of the first class. *)
Lemma factorize_first_class (classes : list string) :
  map (fun z => Z.eqb z 0) (factorize classes) = in_first_class classes.
Proof.
  destruct classes as [|c0 rest]; [reflexivity|].
  unfold factorize, in_first_class. rewrite map_map.
  unfold first_seen. simpl fold_left.
  destruct (first_seen_head rest c0 []) as [t Ht]. simpl in Ht. rewrite Ht.
  apply map_ext. intros c. unfold code_of. simpl index_of.
  destruct (String.eqb c c0); [reflexivity|].
  destruct (index_of c t); simpl; [|reflexivity].
  destruct n; reflexivity.
Qed.

Lemma select_rows_none {A : Type} (mask : list bool) (v : list A) :
  Forall (eq false) mask -> select_rows mask v = [].
Proof.
  intros H. revert v. induction H as [|b mask <- _ IH]; intros [|x v]; simpl; auto.
Qed.

Variable np_mean np_var : list fnum -> fnum.
Variable stdtr : fnum -> fnum -> fnum.
Variable multipletests : list fnum -> string -> result (list fnum).

Lemma tests_of_first_class (matrix : Matrix) (classes classes' : list string) :
  in_first_class classes = in_first_class classes' ->
  tests_of np_mean np_var stdtr
        matrix classes = tests_of np_mean np_var stdtr matrix classes'.
Proof.
  intros H. unfold tests_of, disease_of, ctrl_of.
  now rewrite !factorize_first_class, H.
Qed.

(** X7: the result depends on the classes through the split "first label
    or not" only: two sequences of labels that put the same samples with
    the first sample give the same frame of results (so more than two
    labels are tested as two groups). *)
Theorem t_tests_reads_first_class_only
    (matrix : Matrix) (classes classes' : list string) (method : string)
    (return_stat : bool) :
  ~ In "Target" (labels matrix) ->
  length classes = nrows matrix -> length classes' = nrows matrix ->
  in_first_class classes = in_first_class classes' ->
  snd (t_tests np_mean np_var stdtr multipletests matrix classes method return_stat)
  = snd (t_tests np_mean np_var stdtr multipletests matrix classes' method return_stat).
Proof.
  intros Hfresh Hl Hl' H.
  rewrite !(t_tests_fresh np_mean np_var stdtr multipletests
        matrix _ method return_stat Hfresh)
    by assumption.
  cbn [snd]. now rewrite (tests_of_first_class matrix classes classes' H).
Qed.

(** X8: when all the samples carry the same label there is no second
    group: the call returns, and every p-value is not-a-number. *)
Theorem one_class_gives_nan
    (matrix : Matrix) (classes : list string) (method : string) (return_stat : bool)
    (c0 : string) :
  (forall p, p <> [] ->
     exists q, multipletests p method = Ok q /\ length q = length p) ->
  ~ In "Target" (labels matrix) -> length classes = nrows matrix ->
  cols matrix <> [] ->
  Forall (eq c0) classes ->
  exists out,
    snd (t_tests np_mean np_var stdtr multipletests
          matrix classes method return_stat) = Ok out
    /\ length (body out) = length (cols matrix)
    /\ Forall (eq (Some (TNum FNaN))) (column "P-value" out).
Proof.
  intros Hmt Hfresh Hlen Hne Hc.
  destruct (t_tests_returns np_mean np_var stdtr multipletests
        matrix classes method return_stat
              Hmt Hfresh Hlen Hne) as [out (H1 & _ & H3 & H4)].
  exists out. split; [exact H1|]. split; [exact H3|].
  assert (Hctrl : forall c, ctrl_of classes c = []).
  { intros c. unfold ctrl_of. apply select_rows_none.
    rewrite factorize_first_class. unfold in_first_class.
    destruct classes as [|c1 rest]; [constructor|].
    rewrite map_map, Forall_map. inversion Hc as [|? ? E _]; subst.
    eapply Forall_impl; [|exact Hc]. intros c' <-.
    now rewrite String.eqb_refl. }
  assert (Hcol : length (column "P-value" out) = length (cols matrix)).
  { unfold column. destruct (index_of "P-value" (header out)) eqn:E.
    - now rewrite length_map.
    - exfalso.
      assert (Hk : exists c, nth_error (cols matrix) 0 = Some c)
        by (destruct (cols matrix) as [|c ?]; [congruence | now exists c]).
      destruct Hk as [c Hk]. destruct (H4 0 c Hk) as [Hp _]. cbv zeta in Hp.
      unfold column in Hp. rewrite E in Hp. discriminate. }
  apply Forall_forall. intros v Hv. apply In_nth_error in Hv. destruct Hv as [k Hk].
  assert (Hlt : k < length (cols matrix))
    by (rewrite <- Hcol; apply nth_error_Some; congruence).
  destruct (nth_error (cols matrix) k) as [c|] eqn:Ec;
    [|apply nth_error_None in Ec; lia].
  destruct (H4 k c Ec) as [Hp _]. cbv zeta in Hp.
  rewrite Hctrl in Hp. unfold ttest_ind_col in Hp. cbv zeta in Hp.
  simpl length in Hp. rewrite orb_true_r in Hp. simpl in Hp. congruence.
Qed.

End Samples.

(** ** Calling [t_tests] again *)

Section Again.

Import TTest.

Variable np_mean np_var : list fnum -> fnum.
Variable stdtr : fnum -> fnum -> fnum.
Variable multipletests : list fnum -> string -> result (list fnum).

Lemma zip_cons_app {V : Type} (col extra : list V) (rest : list (list V)) :
  length rest <= length col -> zip_cons (col ++ extra) rest = zip_cons col rest.
Proof.
  revert rest. induction col as [|x col IH]; intros [|r rest] H; simpl in *;
    try reflexivity; try lia.
  - now destruct extra.
  - f_equal. apply IH. lia.
Qed.

Lemma frame_of_app (metabolites extra : list string) (tt : list (fnum * fnum))
    (padj : list fnum) (return_stat : bool) :
  length metabolites = length tt ->
  frame_of (metabolites ++ extra) tt padj return_stat
  = frame_of metabolites tt padj return_stat.
Proof.
  intros H. unfold frame_of.
  destruct return_stat; rewrite map_app, zip_cons_app; try reflexivity;
    rewrite zip_cons_length, !length_map; lia.
Qed.

Lemma replace_fresh (label : string) (v w : coldata) (l : list (string * coldata)) :
  ~ In label (map fst l) ->
  map (fun c => if String.eqb label (fst c) then (fst c, w) else c)
      (l ++ [(label, v)])
  = l ++ [(label, w)].
Proof.
  induction l as [|c l IH]; simpl; intros H.
  - now rewrite String.eqb_refl.
  - destruct (String.eqb label (fst c)) eqn:E.
    + apply String.eqb_eq in E. exfalso. apply H. now left.
    + f_equal. apply IH. tauto.
Qed.

(** X9: a call on the matrix that an earlier call has left (with its
    column ["Target"]) does what the call on the original matrix does: the
    same frame of results, and the same matrix afterwards. *)
Theorem t_tests_again
    (matrix : Matrix) (classes classes' : list string) (method method' : string)
    (return_stat return_stat' : bool) :
  ~ In "Target" (labels matrix) ->
  length classes = nrows matrix -> length classes' = nrows matrix ->
  t_tests np_mean np_var stdtr multipletests
    (fst (t_tests np_mean np_var stdtr multipletests matrix classes method return_stat))
    classes' method' return_stat'
  = t_tests np_mean np_var stdtr multipletests matrix classes' method' return_stat'.
Proof.
  intros Hfresh Hl Hl'.
  rewrite (t_tests_fresh np_mean np_var stdtr multipletests
        matrix classes method return_stat
             Hfresh Hl). cbn [fst].
  rewrite (t_tests_fresh np_mean np_var stdtr multipletests
        matrix classes' method' return_stat'
             Hfresh Hl').
  unfold t_tests, setitem. cbv zeta.
  rewrite ensure_valid_index_aligned by (cbn [nrows]; now rewrite factorize_length).
  cbn [nrows cols labels].
  rewrite factorize_length, Hl', Nat.eqb_refl.
  match goal with
  | |- context [mem "Target" ?l] =>
      replace (mem "Target" l) with true
        by (symmetry; apply mem_In; unfold labels; cbn [cols]; rewrite map_app;
            apply in_or_app; right; now left)
  end.
  rewrite (replace_fresh "Target" _ (Codes (factorize classes')) _ Hfresh).
  f_equal. unfold eq_zero. cbn [cols].
  rewrite (find_fresh _ _ _ Hfresh). cbn [bind].
  unfold rows_without. cbn [cols]. rewrite (filter_fresh _ _ _ Hfresh).
  unfold ttest_ind. rewrite map2_map.
  fold (tests_of np_mean np_var stdtr matrix classes').
  destruct (multipletests _ method') as [padj|e]; [|reflexivity]. cbn [bind].
  unfold labels. cbn [cols]. rewrite map_app.
  change (frame_of (map fst (cols matrix) ++ map fst [("Target", Codes (factorize classes))])
            (tests_of np_mean np_var stdtr matrix classes') padj return_stat'
          = frame_of (map fst (cols matrix)) (tests_of np_mean np_var stdtr
                matrix classes') padj
              return_stat').
  apply frame_of_app. unfold tests_of. now rewrite !length_map.
Qed.

Lemma zip_drop_last {V : Type} (A B C D : list V) :
  length D = length B ->
  map (firstn 3) (zip_cons A (zip_cons B (zip_cons C (zip_last D))))
  = zip_cons A (zip_cons B (zip_last C)).
Proof.
  revert B C D. induction A as [|a A IH]; intros [|b B] [|c C] [|d D] H;
    simpl in *; try reflexivity; try discriminate.
  f_equal. apply IH. lia.
Qed.

(** X10: [return_stat] adds the column of the statistics and changes
    nothing else: the frame without it is the frame with it, less its last
    column. *)
Theorem return_stat_adds_a_column
    (matrix : Matrix) (classes : list string) (method : string)
    (out : Table tvalue) :
  snd (t_tests np_mean np_var stdtr multipletests
        matrix classes method true) = Ok out ->
  snd (t_tests np_mean np_var stdtr multipletests matrix classes method false)
  = Ok (mkTable (firstn 3 (header out)) (map (firstn 3) (body out)))
  /\ fst (t_tests np_mean np_var stdtr multipletests matrix classes method false)
     = fst (t_tests np_mean np_var stdtr multipletests matrix classes method true).
Proof.
  unfold t_tests.
  destruct (setitem matrix "Target" (factorize classes)) as [m|e];
    [|discriminate].
  cbn [fst snd].
  destruct (eq_zero m "Target") as [mask|e]; [|discriminate]. cbn [bind].
  destruct (multipletests _ method) as [padj|e]; [|discriminate]. cbn [bind].
  intros H. split; [|reflexivity].
  apply pd_DataFrame_ok in H. subst out. cbn [header body].
  rewrite zip_drop_last by now rewrite !length_map.
  apply pd_DataFrame_width.
  repeat apply zip_cons_width. apply zip_last_width.
Qed.

End Again.

(** ** Runs for the further properties *)

Lemma analysis_exceptions_witness :
  ORA.over_representation_analysis ORA.listing Examples.DA_example
    Examples.background_example MoreExamples.nameless_frame = Raise KeyError
  /\ ORA.over_representation_analysis ORA.listing Examples.DA_example
       Examples.background_example MoreExamples.repeated_frame
     = Raise AttributeError.
Proof.
  split.
  - apply (proj1 (analysis_exceptions ORA.listing Examples.DA_example
                    Examples.background_example MoreExamples.nameless_frame)).
    simpl. intuition discriminate.
  - destruct (ORA.over_representation_analysis ORA.listing Examples.DA_example
                Examples.background_example MoreExamples.repeated_frame)
      as [out|e] eqn:E.
    + vm_compute in E. discriminate.
    + f_equal.
      apply (proj2 (analysis_exceptions ORA.listing Examples.DA_example
                      Examples.background_example MoreExamples.repeated_frame));
        [simpl; tauto | exact E].
Defined.

Lemma analysis_reads_lists_as_sets_witness :
  ORA.over_representation_analysis ORA.listing ["C1"; "C2"] ["C1"; "C2"; "C3"; "C4"]
    Examples.pathways_example
  = ORA.over_representation_analysis ORA.listing ["C2"; "C1"; "C2"]
      ["C4"; "C3"; "C3"; "C2"] Examples.pathways_example.
Proof.
  apply analysis_reads_lists_as_sets.
  - intros x. simpl. tauto.
  - intros x. simpl. tauto.
Defined.

Lemma analysis_ids_distinct_witness :
  exists out,
    ORA.over_representation_analysis ORA.listing Examples.DA_example
      Examples.background_example Examples.pathways_example = Ok out
    /\ NoDup (column "Pathway_ID" out).
Proof.
  eexists. split; [vm_compute; reflexivity|].
  apply (analysis_ids_distinct ORA.listing Examples.DA_example
           Examples.background_example Examples.pathways_example).
  vm_compute. reflexivity.
Defined.

Lemma analysis_rows_shape_and_bounds_witness :
  exists out,
    ORA.over_representation_analysis ORA.listing Examples.DA_example
      Examples.background_example Examples.pathways_example = Ok out
    /\ header out = ORA.result_columns
    /\ (forall row, In row (body out) ->
          exists id name hits coverage p q,
            row = [ORA.VStr id; ORA.VCell name; ORA.VStr hits; ORA.VStr coverage;
                   ORA.VNum p; ORA.VNum q]
            /\ (0 <= p)%Q /\ (Qmin p 1 <= q)%Q /\ (q <= 1)%Q).
Proof.
  eexists. split; [vm_compute; reflexivity|].
  split;
    apply (analysis_rows_shape_and_bounds ORA.listing Examples.DA_example
             Examples.background_example Examples.pathways_example);
    vm_compute; reflexivity.
Defined.

Lemma t_tests_reads_first_class_only_witness :
  snd (TTest.t_tests TTest.mean_in_order TTest.var_in_order TTest.stdtr_2
        TTest.bonferroni Examples.abundances
         Examples.two_classes "bonferroni" true)
  = snd (TTest.t_tests TTest.mean_in_order TTest.var_in_order TTest.stdtr_2
        TTest.bonferroni Examples.abundances
           MoreExamples.three_classes "bonferroni" true).
Proof.
  apply t_tests_reads_first_class_only.
  - apply abundances_fresh.
  - reflexivity.
  - reflexivity.
  - reflexivity.
Defined.

Lemma one_class_gives_nan_witness :
  exists out,
    snd (TTest.t_tests TTest.mean_in_order TTest.var_in_order TTest.stdtr_2
          TTest.bonferroni Examples.abundances
           MoreExamples.one_class "bonferroni" false) = Ok out
    /\ length (body out) = 2
    /\ Forall (eq (Some (TTest.TNum TTest.FNaN))) (column "P-value" out).
Proof.
  apply (one_class_gives_nan TTest.mean_in_order TTest.var_in_order TTest.stdtr_2
        TTest.bonferroni Examples.abundances
           MoreExamples.one_class "bonferroni" false "case").
  - intros p Hp. now apply bonferroni_total.
  - apply abundances_fresh.
  - reflexivity.
  - discriminate.
  - repeat constructor.
Defined.

Lemma t_tests_again_witness :
  TTest.t_tests TTest.mean_in_order TTest.var_in_order TTest.stdtr_2 TTest.bonferroni
    (fst (TTest.t_tests TTest.mean_in_order TTest.var_in_order TTest.stdtr_2
          TTest.bonferroni Examples.abundances
            Examples.two_classes "bonferroni" false))
    MoreExamples.three_classes "bonferroni" true
  = TTest.t_tests TTest.mean_in_order TTest.var_in_order TTest.stdtr_2
        TTest.bonferroni Examples.abundances
      MoreExamples.three_classes "bonferroni" true.
Proof.
  apply t_tests_again.
  - apply abundances_fresh.
  - reflexivity.
  - reflexivity.
Defined.

Lemma return_stat_adds_a_column_witness :
  exists out,
    snd (TTest.t_tests TTest.mean_in_order TTest.var_in_order TTest.stdtr_2
          TTest.bonferroni Examples.abundances
           Examples.two_classes "bonferroni" true) = Ok out
    /\ snd (TTest.t_tests TTest.mean_in_order TTest.var_in_order TTest.stdtr_2
          TTest.bonferroni Examples.abundances
              Examples.two_classes "bonferroni" false)
       = Ok (mkTable (firstn 3 (header out)) (map (firstn 3) (body out))).
Proof.
  destruct (t_tests_returns TTest.mean_in_order TTest.var_in_order TTest.stdtr_2
        TTest.bonferroni Examples.abundances
              Examples.two_classes "bonferroni" true) as [out [Hok _]].
  - intros p Hp. now apply bonferroni_total.
  - apply abundances_fresh.
  - reflexivity.
  - discriminate.
  - exists out. split; [exact Hok|].
    apply (return_stat_adds_a_column TTest.mean_in_order TTest.var_in_order
          TTest.stdtr_2 TTest.bonferroni
             Examples.abundances Examples.two_classes "bonferroni" out Hok).
Defined.

Lemma analysis_returns_iff_well_formed_witness :
  exists out,
    ORA.over_representation_analysis ORA.listing Examples.DA_example
      Examples.background_example Examples.pathways_example = Ok out.
Proof.
  apply (proj1 (analysis_returns_iff_well_formed ORA.listing Examples.DA_example
                  Examples.background_example Examples.pathways_example)).
  apply pathways_example_well_formed.
Defined.
